(** * SearchSmartly: the POI import pipeline

  A shallow embedding of [poi/management/commands/import_poi.py] and of
  [PointOfInterest.average_rating] from [poi/models.py].

  Python values are an inductive type, [str] is [string] (7-bit text;
  characters outside ASCII are carried as their UTF-8 bytes), [int] is [Z],
  [float] is IEEE binary64 as [spec_float] with [prec = 53] and
  [emax = 1024], [Decimal] keeps sign, coefficient and exponent.  Code that
  writes to [self.stdout], touches the store or raises runs in a state and
  exception monad. *)

From Stdlib Require Import ZArith QArith Ascii String.
From Corelib Require Import SpecFloat.
From stdpp Require Import gmap strings pretty.

Local Open Scope Z_scope.
Local Set Warnings "-register-all".

(** ** Text: the [str] methods the importer calls *)

Module Str.

Definition lower_char (c : ascii) : ascii :=
  let n := nat_of_ascii c in
  if ((65 <=? n) && (n <=? 90))%nat then ascii_of_nat (n + 32) else c.

(** [s.lower()] *)
Fixpoint lower (s : string) : string :=
  match s with
  | EmptyString => EmptyString
  | String c r => String (lower_char c) (lower r)
  end.

(** [s.startswith(p)] *)
Fixpoint startswith (p s : string) : bool :=
  match p, s with
  | EmptyString, _ => true
  | String a p', String b s' => if Ascii.eqb a b then startswith p' s' else false
  | String _ _, EmptyString => false
  end.

(** [p in s] *)
Fixpoint contains (p s : string) : bool :=
  startswith p s ||
  match s with
  | EmptyString => false
  | String _ r => contains p r
  end.

Fixpoint rev_onto (s acc : string) : string :=
  match s with
  | EmptyString => acc
  | String c r => rev_onto r (String c acc)
  end.

Definition rev (s : string) : string := rev_onto s EmptyString.

(** [s.endswith(p)] *)
Definition endswith (p s : string) : bool := startswith (rev p) (rev s).

Fixpoint lstrip_by (f : ascii -> bool) (s : string) : string :=
  match s with
  | EmptyString => EmptyString
  | String c r => if f c then lstrip_by f r else s
  end.

Definition strip_by (f : ascii -> bool) (s : string) : string :=
  rev (lstrip_by f (rev (lstrip_by f s))).

(** What [str.isspace] accepts below 128: TAB, LF, VT, FF, CR, FS, GS, RS,
    US and the space. *)
Definition isspace (c : ascii) : bool :=
  let n := nat_of_ascii c in
  ((9 <=? n) && (n <=? 13) || (28 <=? n) && (n <=? 32))%nat.

(** [s.strip()] *)
Definition strip (s : string) : string := strip_by isspace s.

Fixpoint mem_char (c : ascii) (set : string) : bool :=
  match set with
  | EmptyString => false
  | String d r => Ascii.eqb c d || mem_char c r
  end.

(** [s.strip(chars)] *)
Definition strip_chars (chars s : string) : string :=
  strip_by (fun c => mem_char c chars) s.

(** [s.split(sep)] for a one-character separator: never empty, the empty
    string splits into one empty piece. *)
Fixpoint split (sep : ascii) (s : string) : list string :=
  match s with
  | EmptyString => [EmptyString]
  | String c r =>
      if Ascii.eqb c sep then EmptyString :: split sep r
      else match split sep r with
           | p :: ps => String c p :: ps
           | [] => [String c EmptyString]
           end
  end.

(** [s.replace(c, "")] *)
Fixpoint remove_char (c : ascii) (s : string) : string :=
  match s with
  | EmptyString => EmptyString
  | String d r => if Ascii.eqb c d then remove_char c r else String d (remove_char c r)
  end.

Definition is_digit (c : ascii) : bool :=
  let n := nat_of_ascii c in ((48 <=? n) && (n <=? 57))%nat.

Definition digit_val (c : ascii) : Z := Z.of_nat (nat_of_ascii c) - 48.

(** The longest prefix of digits and what follows it. *)
Fixpoint span_digits (s : string) : string * string :=
  match s with
  | String c r =>
      if is_digit c then let '(d, t) := span_digits r in (String c d, t)
      else (EmptyString, s)
  | EmptyString => (EmptyString, EmptyString)
  end.

(** The number a string of digits writes, most significant first. *)
Fixpoint digits_onto (acc : Z) (s : string) : Z :=
  match s with
  | EmptyString => acc
  | String c r => digits_onto (10 * acc + digit_val c) r
  end.

Definition digits_value (s : string) : Z := digits_onto 0 s.

Definition len (s : string) : Z := Z.of_nat (String.length s).

Definition is_empty (s : string) : bool :=
  match s with EmptyString => true | _ => false end.

(** Line boundaries of [str.splitlines] below 128, CR apart: LF, VT, FF, FS,
    GS, RS. *)
Definition is_linebreak (c : ascii) : bool :=
  let n := nat_of_ascii c in
  ((10 <=? n) && (n <=? 12) || (28 <=? n) && (n <=? 30))%nat.

Fixpoint splitlines_acc (acc s : string) : list string :=
  match s with
  | EmptyString => if is_empty acc then [] else [rev acc]
  | String c r =>
      if Ascii.eqb c "013" then
        rev acc :: match r with
                   | String "010" r' => splitlines_acc EmptyString r'
                   | _ => splitlines_acc EmptyString r
                   end
      else if is_linebreak c then rev acc :: splitlines_acc EmptyString r
      else splitlines_acc (String c acc) r
  end.

(** [s.splitlines()] *)
Definition splitlines (s : string) : list string := splitlines_acc EmptyString s.

Fixpoint readlines_acc (acc s : string) : list string :=
  match s with
  | EmptyString => if is_empty acc then [] else [rev acc]
  | String c r =>
      if Ascii.eqb c "013" then
        rev (String "010" acc) :: match r with
                                  | String "010" r' => readlines_acc EmptyString r'
                                  | _ => readlines_acc EmptyString r
                                  end
      else if Ascii.eqb c "010" then rev (String "010" acc) :: readlines_acc EmptyString r
      else readlines_acc (String c acc) r
  end.

(** The lines a text file opened for reading yields: each keeps its end,
    which universal newlines turn into LF. *)
Definition readlines (s : string) : list string := readlines_acc EmptyString s.

(** A UTF-8 continuation byte. *)
Definition is_continuation (c : ascii) : bool :=
  let n := nat_of_ascii c in ((128 <=? n) && (n <=? 191))%nat.

(** The characters of a string, one string each (iterating a [str]). *)
Fixpoint chars (s : string) : list string :=
  match s with
  | EmptyString => []
  | String c r =>
      match chars r with
      | String d t :: more =>
          if is_continuation d then String c (String d t) :: more
          else String c EmptyString :: String d t :: more
      | more => String c EmptyString :: more
      end
  end.

(** The text before the first [c] and the text after it. *)
Fixpoint partition (c : ascii) (s : string) : option (string * string) :=
  match s with
  | EmptyString => None
  | String d r =>
      if Ascii.eqb c d then Some (EmptyString, r)
      else match partition c r with
           | Some (a, b) => Some (String d a, b)
           | None => None
           end
  end.

End Str.


(** ** Numbers: [float] and [Decimal] *)

(** IEEE binary64. *)
Definition prec : Z := 53.
Definition emax : Z := 1024.

Definition fadd : spec_float -> spec_float -> spec_float := SFadd prec emax.
Definition fdiv : spec_float -> spec_float -> spec_float := SFdiv prec emax.

(** The float nearest to an integer (ties to even); an infinity when the
    integer is beyond the largest float. *)
Definition float_of_Z (z : Z) : spec_float := binary_normalize prec emax z 0 false.

(** The float nearest to [m * 10 ^ e], for a coefficient [m >= 0]: what
    [float] returns for the numeral's text. *)
Definition float_of_decimal (neg : bool) (m e : Z) : spec_float :=
  if m =? 0 then S754_zero neg
  else if 0 <=? e then binary_normalize prec emax (cond_Zopp neg (m * 10 ^ e)) 0 false
  else fdiv (S754_finite neg (Z.to_pos m) 0) (S754_finite false (Z.to_pos (10 ^ (- e))) 0).

Definition is_infinity (f : spec_float) : bool :=
  match f with S754_infinity _ => true | _ => false end.

Definition is_fzero (f : spec_float) : bool :=
  match f with S754_zero _ => true | _ => false end.

(** [decimal.Decimal]: a finite value is [(-1)^neg * coeff * 10^exp]. *)
Inductive decimal :=
| DecFinite (neg : bool) (coeff : Z) (exp : Z)
| DecInfinity (neg : bool)
| DecNaN (neg : bool) (signaling : bool) (payload : Z).

Module Numeral.

Definition split_sign (s : string) : bool * string :=
  match s with
  | String "-" r => (true, r)
  | String "+" r => (false, r)
  | _ => (false, s)
  end.

(** Digits, then optionally a point and digits, with a digit somewhere: the
    coefficient, the number of fraction digits and the rest of the text. *)
Definition scan_mantissa (s : string) : option (Z * Z * string) :=
  let '(ip, r1) := Str.span_digits s in
  let '(fp, r2) :=
    match r1 with
    | String "." r => Str.span_digits r
    | _ => (EmptyString, r1)
    end in
  if Str.is_empty ip && Str.is_empty fp then None
  else Some (Str.digits_value (ip +:+ fp), Str.len fp, r2).

(** An optional exponent (the letter e, an optional sign, digits) up to the
    end of the text. *)
Definition scan_exponent (s : string) : option Z :=
  match s with
  | EmptyString => Some 0
  | String "e" r =>
      let '(neg, r') := split_sign r in
      let '(d, t) := Str.span_digits r' in
      if Str.is_empty d || negb (Str.is_empty t) then None
      else Some (cond_Zopp neg (Str.digits_value d))
  | _ => None
  end.

(** A decimal numeral in lower case, sign apart: coefficient and power of
    ten. *)
Definition unsigned (s : string) : option (Z * Z) :=
  match scan_mantissa s with
  | Some (c, nf, rest) =>
      match scan_exponent rest with
      | Some e => Some (c, e - nf)
      | None => None
      end
  | None => None
  end.

(** The underscores [float] accepts stand between two digits; the text
    without them, or [None]. *)
Fixpoint drop_underscores (prev : ascii) (s : string) : option string :=
  match s with
  | EmptyString => if Ascii.eqb prev "_" then None else Some EmptyString
  | String c r =>
      if Ascii.eqb c "_" then
        if Str.is_digit prev then drop_underscores c r else None
      else if Ascii.eqb prev "_" && negb (Str.is_digit c) then None
      else match drop_underscores c r with
           | Some t => Some (String c t)
           | None => None
           end
  end.

End Numeral.

(** [float(s)] for a string: [None] is [ValueError]. *)
Definition float_of_string (s : string) : option spec_float :=
  match Numeral.drop_underscores "000" (Str.strip s) with
  | None => None
  | Some t =>
      let '(neg, body) := Numeral.split_sign (Str.lower t) in
      if String.eqb body "inf" || String.eqb body "infinity" then Some (S754_infinity neg)
      else if String.eqb body "nan" then Some S754_nan
      else match Numeral.unsigned body with
           | Some (c, e) => Some (float_of_decimal neg c e)
           | None => None
           end
  end.

(** [Decimal(s)] for a string: [None] is [decimal.InvalidOperation]. *)
Definition Decimal_of_string (s : string) : option decimal :=
  let '(neg, body) :=
    Numeral.split_sign (Str.lower (Str.remove_char "_" (Str.strip s))) in
  if String.eqb body "inf" || String.eqb body "infinity" then Some (DecInfinity neg)
  else
    let nan_payload (signaling : bool) (digits : string) :=
      let '(d, t) := Str.span_digits digits in
      if Str.is_empty t then Some (DecNaN neg signaling (Str.digits_value d)) else None in
    match body with
    | String "n" (String "a" (String "n" r)) => nan_payload false r
    | String "s" (String "n" (String "a" (String "n" r))) => nan_payload true r
    | _ =>
        match Numeral.unsigned body with
        | Some (c, e) => Some (DecFinite neg c e)
        | None => None
        end
    end.

(** ** Python values *)

(** What [json.loads] can return. A [dict] keeps its keys in insertion
    order, each key once. *)
Inductive value :=
| VNone
| VBool (b : bool)
| VInt (z : Z)
| VFloat (f : spec_float)
| VStr (s : string)
| VList (l : list value)
| VDict (d : list (string * value)).

Module Dict.

(** [d[k]], [None] for a missing key. *)
Fixpoint get {A} (k : string) (d : list (string * A)) : option A :=
  match d with
  | [] => None
  | (k', v) :: r => if String.eqb k k' then Some v else get k r
  end.

(** [d[k] = v]: a key already there keeps its place. *)
Fixpoint set {A} (k : string) (v : A) (d : list (string * A)) : list (string * A) :=
  match d with
  | [] => [(k, v)]
  | (k', v') :: r => if String.eqb k k' then (k, v) :: r else (k', v') :: set k v r
  end.

(** [dict(pairs)] *)
Definition of_pairs {A} (pairs : list (string * A)) : list (string * A) :=
  fold_left (fun d kv => set (fst kv) (snd kv) d) pairs [].

End Dict.

(** ** [json.loads] *)

Module Json.

Definition is_ws (c : ascii) : bool :=
  Ascii.eqb c " " || Ascii.eqb c "009" || Ascii.eqb c "010" || Ascii.eqb c "013".

Definition skip_ws (s : string) : string := Str.lstrip_by is_ws s.

(** [s] without the prefix [p], when it starts with it. *)
Fixpoint strip_prefix (p s : string) : option string :=
  match p, s with
  | EmptyString, _ => Some s
  | String a p', String b s' => if Ascii.eqb a b then strip_prefix p' s' else None
  | String _ _, EmptyString => None
  end.

Definition hex_val (c : ascii) : option Z :=
  let n := Z.of_nat (nat_of_ascii c) in
  if (48 <=? n) && (n <=? 57) then Some (n - 48)
  else if (65 <=? n) && (n <=? 70) then Some (n - 55)
  else if (97 <=? n) && (n <=? 102) then Some (n - 87)
  else None.

Definition hex4 (a b c d : ascii) : option Z :=
  match hex_val a, hex_val b, hex_val c, hex_val d with
  | Some x, Some y, Some z, Some w => Some (((x * 16 + y) * 16 + z) * 16 + w)
  | _, _, _, _ => None
  end.

(** One unit of a string literal: a character of the text, or the code
    unit a [\u] escape names. *)
Inductive unit_ := UChar (c : ascii) | UEsc (u : Z).

Definition simple_escape (c : ascii) : option ascii :=
  if Ascii.eqb c "034" then Some "034"%char
  else if Ascii.eqb c "\" then Some "\"%char
  else if Ascii.eqb c "/" then Some "/"%char
  else if Ascii.eqb c "b" then Some "008"%char
  else if Ascii.eqb c "f" then Some "012"%char
  else if Ascii.eqb c "n" then Some "010"%char
  else if Ascii.eqb c "r" then Some "013"%char
  else if Ascii.eqb c "t" then Some "009"%char
  else None.

(** The units of a string literal from after its opening quote, and the
    text after its closing quote. Control characters and unknown escapes are
    refused. *)
Fixpoint scan_units (s : string) : option (list unit_ * string) :=
  match s with
  | EmptyString => None
  | String c r =>
      if Ascii.eqb c "034" then Some ([], r)
      else if Ascii.eqb c "\" then
        match r with
        | String "u" (String h1 (String h2 (String h3 (String h4 r')))) =>
            match hex4 h1 h2 h3 h4, scan_units r' with
            | Some u, Some (us, t) => Some (UEsc u :: us, t)
            | _, _ => None
            end
        | String e r' =>
            match simple_escape e, scan_units r' with
            | Some ch, Some (us, t) => Some (UChar ch :: us, t)
            | _, _ => None
            end
        | EmptyString => None
        end
      else if (nat_of_ascii c <? 32)%nat then None
      else match scan_units r with
           | Some (us, t) => Some (UChar c :: us, t)
           | None => None
           end
  end.

Definition byte (z : Z) : ascii := ascii_of_nat (Z.to_nat z).

(** UTF-8 for a code point. *)
Definition utf8 (cp : Z) : string :=
  if cp <? 128 then String (byte cp) EmptyString
  else if cp <? 2048 then
    String (byte (192 + cp / 64)) (String (byte (128 + cp mod 64)) EmptyString)
  else if cp <? 65536 then
    String (byte (224 + cp / 4096))
      (String (byte (128 + (cp / 64) mod 64)) (String (byte (128 + cp mod 64)) EmptyString))
  else
    String (byte (240 + cp / 262144))
      (String (byte (128 + (cp / 4096) mod 64))
         (String (byte (128 + (cp / 64) mod 64)) (String (byte (128 + cp mod 64)) EmptyString))).

(** The text the units spell; an escaped high surrogate followed by an
    escaped low one is one code point. *)
Fixpoint decode_units (us : list unit_) : string :=
  match us with
  | [] => EmptyString
  | UChar c :: r => String c (decode_units r)
  | UEsc hi :: r =>
      match r with
      | UEsc lo :: r' =>
          if (55296 <=? hi) && (hi <=? 56319) && (56320 <=? lo) && (lo <=? 57343)
          then utf8 (65536 + (hi - 55296) * 1024 + (lo - 56320)) +:+ decode_units r'
          else utf8 hi +:+ decode_units r
      | _ => utf8 hi +:+ decode_units r
      end
  end.

(** A string literal from after its opening quote. *)
Definition scanstring (s : string) : option (string * string) :=
  match scan_units s with
  | Some (us, t) => Some (decode_units us, t)
  | None => None
  end.

(** The number at the start of the text, as the decoder's pattern matches
    it: an optional minus, then a lone 0 or a digit from 1 to 9 and more
    digits, then optionally a point and digits, then optionally an exponent
    with digits. It is an [int] unless a fraction or an exponent was matched. *)
Definition match_number (s : string) : option (value * string) :=
  let '(neg, r0) := match s with String "-" r => (true, r) | _ => (false, s) end in
  let '(ip, r1) := Str.span_digits r0 in
  match ip with
  | EmptyString => None
  | String d ip' =>
      let '(int_part, after_int) :=
        if Ascii.eqb d "0" then (String d EmptyString, ip' +:+ r1) else (ip, r1) in
      let '(frac, after_frac) :=
        match after_int with
        | String "." r =>
            let '(fd, t) := Str.span_digits r in
            if Str.is_empty fd then (None, after_int) else (Some fd, t)
        | _ => (None, after_int)
        end in
      let '(expo, rest) :=
        match after_frac with
        | String e r =>
            if Ascii.eqb e "e" || Ascii.eqb e "E" then
              let '(eneg, r') := Numeral.split_sign r in
              let '(ed, t) := Str.span_digits r' in
              if Str.is_empty ed then (None, after_frac)
              else (Some (cond_Zopp eneg (Str.digits_value ed)), t)
            else (None, after_frac)
        | EmptyString => (None, after_frac)
        end in
      match frac, expo with
      | None, None => Some (VInt (cond_Zopp neg (Str.digits_value int_part)), rest)
      | _, _ =>
          let fd := match frac with Some f => f | None => EmptyString end in
          let e := match expo with Some e => e | None => 0 end in
          Some (VFloat (float_of_decimal neg (Str.digits_value (int_part +:+ fd))
                          (e - Str.len fd)), rest)
      end
  end.

(** One JSON value at the start of the text and the text after it, by
    recursive descent; the three functions count down [fuel]. *)
Fixpoint scan_once (fuel : nat) (s : string) : option (value * string) :=
  match fuel with
  | O => None
  | S fuel' =>
      match s with
      | String "034" r =>
          match scanstring r with
          | Some (str, t) => Some (VStr str, t)
          | None => None
          end
      | String "{" r =>
          match skip_ws r with
          | String "}" t => Some (VDict [], t)
          | r' => parse_pairs fuel' r' []
          end
      | String "[" r =>
          match skip_ws r with
          | String "]" t => Some (VList [], t)
          | r' => parse_items fuel' r' []
          end
      | _ =>
          match strip_prefix "null" s, strip_prefix "true" s, strip_prefix "false" s with
          | Some t, _, _ => Some (VNone, t)
          | _, Some t, _ => Some (VBool true, t)
          | _, _, Some t => Some (VBool false, t)
          | _, _, _ =>
              match strip_prefix "NaN" s, strip_prefix "Infinity" s, strip_prefix "-Infinity" s with
              | Some t, _, _ => Some (VFloat S754_nan, t)
              | _, Some t, _ => Some (VFloat (S754_infinity false), t)
              | _, _, Some t => Some (VFloat (S754_infinity true), t)
              | _, _, _ => match_number s
              end
          end
      end
  end
with parse_items (fuel : nat) (s : string) (acc : list value) : option (value * string) :=
  match fuel with
  | O => None
  | S fuel' =>
      match scan_once fuel' s with
      | Some (v, r) =>
          match skip_ws r with
          | String "]" t => Some (VList (rev (v :: acc)), t)
          | String "," t => parse_items fuel' (skip_ws t) (v :: acc)
          | _ => None
          end
      | None => None
      end
  end
with parse_pairs (fuel : nat) (s : string) (acc : list (string * value)) : option (value * string) :=
  match fuel with
  | O => None
  | S fuel' =>
      match s with
      | String "034" r =>
          match scanstring r with
          | Some (key, r1) =>
              match skip_ws r1 with
              | String ":" r2 =>
                  match scan_once fuel' (skip_ws r2) with
                  | Some (v, r3) =>
                      match skip_ws r3 with
                      | String "}" t => Some (VDict (Dict.of_pairs (rev ((key, v) :: acc))), t)
                      | String "," t => parse_pairs fuel' (skip_ws t) ((key, v) :: acc)
                      | _ => None
                      end
                  | None => None
                  end
              | _ => None
              end
          | None => None
          end
      | _ => None
      end
  end.

(** The byte order mark, which the decoder refuses. *)
Definition bom : string := String "239" (String "187" (String "191" EmptyString)).

(** [json.loads(s)]: [None] is [json.JSONDecodeError]. *)
Definition loads (s : string) : option value :=
  if Str.startswith bom s then None
  else
    match scan_once (2 * String.length s + 2) (skip_ws s) with
    | Some (v, r) => if Str.is_empty (skip_ws r) then Some v else None
    | None => None
    end.

End Json.

(** ** Exceptions *)

Inductive exn :=
| KeyError (key : string)
| TypeError
| ValueError
| JSONDecodeError
| AttributeError
| InvalidOperation
| OverflowError
| ZeroDivisionError
| ParseError
| OSError
| RequestException
| DatabaseError
| CommandError (msg : string) (cause : option exn).

Inductive result (A : Type) :=
| Ok (a : A)
| Raise (e : exn).

Arguments Ok {A} a.
Arguments Raise {A} e.

(** [json.JSONDecodeError] is a subclass of [ValueError]. *)
Definition is_ValueError (e : exn) : bool :=
  match e with ValueError | JSONDecodeError => true | _ => false end.

#[global] Instance result_ret : MRet result := fun A a => Ok a.

#[global] Instance result_bind : MBind result := fun A B k m =>
  match m with Ok a => k a | Raise e => Raise e end.

(** [try: m] with the [except] clauses [h]: [h e] is the handler the first
    matching clause runs, [None] when no clause matches [e]. *)
Definition try_except {A} (m : result A) (h : exn -> option (result A)) : result A :=
  match m with
  | Ok a => Ok a
  | Raise e => match h e with Some r => r | None => Raise e end
  end.

Definition json_loads (s : string) : result value :=
  match Json.loads s with Some v => Ok v | None => Raise JSONDecodeError end.

(** [float(x)] for a [str]. *)
Definition float_str (s : string) : result spec_float :=
  match float_of_string s with Some f => Ok f | None => Raise ValueError end.

(** ** [Command.parse_ratings] *)

(** [[float(x.strip()) for x in pieces if x]] *)
Fixpoint float_pieces (pieces : list string) : result (list value) :=
  match pieces with
  | [] => Ok []
  | x :: r =>
      if Str.is_empty x then float_pieces r
      else f ← float_str (Str.strip x); fs ← float_pieces r; Ok (VFloat f :: fs)
  end.

Definition parse_ratings (ratings_data : value) : result value :=
  match ratings_data with
  | VList _ => Ok ratings_data
  | VStr s =>
      try_except (json_loads s) (fun e =>
        match e with
        | JSONDecodeError => Some (
            try_except
              (fs ← float_pieces (Str.split "," (Str.strip_chars "{}" s)); Ok (VList fs))
              (fun e => if is_ValueError e then Some (
                 try_except
                   (f ← float_str s; Ok (VList [VFloat f]))
                   (fun e => if is_ValueError e then Some (Ok (VList [])) else None))
               else None))
        | _ => None
        end)
  | _ => Ok (VList [])
  end.

(** ** [PointOfInterest.average_rating] *)

(** [bool(v)] *)
Definition truthy (v : value) : bool :=
  match v with
  | VNone => false
  | VBool b => b
  | VInt z => negb (z =? 0)
  | VFloat f => negb (is_fzero f)
  | VStr s => negb (Str.is_empty s)
  | VList l => match l with [] => false | _ => true end
  | VDict d => match d with [] => false | _ => true end
  end.

(** [isinstance(v, (int, float))]: [bool] is a subclass of [int]. *)
Definition is_int_or_float (v : value) : bool :=
  match v with VInt _ | VBool _ | VFloat _ => true | _ => false end.

(** The operand of an arithmetic operator: an integer, a float, or
    something else. *)
Inductive operand := OInt (z : Z) | OFloat (f : spec_float) | ONone.

Definition operand_of (v : value) : operand :=
  match v with
  | VInt z => OInt z
  | VBool b => OInt (if b then 1 else 0)
  | VFloat f => OFloat f
  | _ => ONone
  end.

(** Halfway between the largest float and [2 ^ 1024]: from here on a
    magnitude rounds out of the floats. *)
Definition overflow_threshold : Z := 2 ^ 1024 - 2 ^ 970.

(** [float(z)] for an [int]: the nearest float, and [OverflowError] when
    that is beyond the largest float. *)
Definition float_int (z : Z) : result spec_float :=
  if overflow_threshold <=? Z.abs z then Raise OverflowError else Ok (float_of_Z z).

(** [float(v)] for an [int] or a [float]. *)
Definition float_num (v : value) : result spec_float :=
  match operand_of v with
  | OInt z => float_int z
  | OFloat f => Ok f
  | ONone => Raise TypeError
  end.

(** [a + b] with a number on the left. *)
Definition py_add (a b : value) : result value :=
  match operand_of a, operand_of b with
  | OInt x, OInt y => Ok (VInt (x + y))
  | OInt x, OFloat g => f ← float_int x; Ok (VFloat (fadd f g))
  | OFloat f, OInt y => g ← float_int y; Ok (VFloat (fadd f g))
  | OFloat f, OFloat g => Ok (VFloat (fadd f g))
  | _, _ => Raise TypeError
  end.

(** [a / b] on integers: the float nearest to the quotient, and
    [OverflowError] when that is beyond the largest float. *)
Definition int_true_divide (a b : Z) : result spec_float :=
  if b =? 0 then Raise ZeroDivisionError
  else if overflow_threshold * Z.abs b <=? Z.abs a then Raise OverflowError
  else if a =? 0 then Ok (S754_zero (b <? 0))
  else Ok (fdiv (S754_finite (a <? 0) (Z.to_pos (Z.abs a)) 0)
                (S754_finite (b <? 0) (Z.to_pos (Z.abs b)) 0)).

Definition float_true_divide (f g : spec_float) : result spec_float :=
  if is_fzero g then Raise ZeroDivisionError else Ok (fdiv f g).

(** [a / b] *)
Definition py_truediv (a b : value) : result spec_float :=
  match operand_of a, operand_of b with
  | OInt x, OInt y => int_true_divide x y
  | OInt x, OFloat g => f ← float_int x; float_true_divide f g
  | OFloat f, OInt y => g ← float_int y; float_true_divide f g
  | OFloat f, OFloat g => float_true_divide f g
  | _, _ => Raise TypeError
  end.

(** [sum(l)]: from the integer 0, adding the items from the left, one
    rounding for each float addition. *)
Definition py_sum (l : list value) : result value :=
  fold_left (fun acc x => a ← acc; py_add a x) l (Ok (VInt 0)).

Definition zero : spec_float := S754_zero false.

(** The property, as a function of [self.ratings]. *)
Definition average_rating (ratings : value) : result spec_float :=
  try_except
    (if negb (truthy ratings) then Ok zero
     else if is_int_or_float ratings then float_num ratings
     else match ratings with
          | VList l =>
              total ← py_sum l; py_truediv total (VInt (Z.of_nat (length l)))
          | _ => Ok zero
          end)
    (fun e =>
       match e with
       | TypeError | ValueError | JSONDecodeError | ZeroDivisionError => Some (Ok zero)
       | _ => None
       end).

(** ** The world of the command: store, output, files, network *)

(** What a model field can hold: a JSON-shaped value or a [Decimal]. *)
Inductive field_value :=
| FVal (v : value)
| FDec (d : decimal).

(** An [xml.etree.ElementTree.Element]: tag, text, children. *)
Inductive Element :=
| Elem (tag : string) (text : option string) (children : list Element).

(** What the importer reads of a [requests] response. *)
Record Response := {
  content_type_header : option string;
  text : string
}.

(** Store operations that can fail. *)
Inductive db_op :=
| OpGet (external_id : option string)
| OpCreate (obj : gmap string field_value)
| OpSave (pk : string) (obj : gmap string field_value).

(** Everything outside the repository that the command calls. [py_repr] is
    [str] on floats, lists and dicts; [csv_reader] is [csv.reader] over lines;
    [ET_fromstring] is the XML parser, [None] for [ParseError]; [read_file]
    is [open(...).read()], [None] for [OSError]; [requests_get] is
    [requests.get] followed by [raise_for_status], [None] for
    [RequestException]; [db_fault] says which store operations fail in which
    store (constraint violations, connection errors). *)
Record Env := {
  py_repr : value -> string;
  csv_reader : list string -> list (list string);
  ET_fromstring : string -> option Element;
  read_file : string -> option string;
  requests_get : string -> option Response;
  db_fault : gmap string (gmap string field_value) -> db_op -> bool
}.

Inductive style := PLAIN | SUCCESS | WARNING | ERROR.

(** The lines the command writes, with the values their text holds. *)
Inductive message :=
| MsgProcessed (source : string) (imported skipped updated : Z)
| MsgErrorProcessing (source : string) (e : exn)
| MsgTotal (imported skipped updated : Z)
| MsgDownloading (url : string)
| MsgEmptyCSV (source : string)
| MsgMissingField (format : string) (source : option string) (e : exn)
| MsgRecordError (format : string) (source : option string) (e : exn)
| MsgXMLParsingFailed (e : exn)
| MsgErrorSaving (external_id : option string) (e : exn).

(** The rows of [PointOfInterest] by [external_id] (the column is unique),
    each row its columns by name, and what was written to [self.stdout].
    The store-managed columns [internal_id], [created_at] and [updated_at]
    are left out. *)
Record state := {
  store : gmap string (gmap string field_value);
  stdout : list (style * message)
}.

(** State and exceptions. *)
Definition M (A : Type) : Type := state -> result A * state.

#[global] Instance M_ret : MRet M := fun A a st => (Ok a, st).

#[global] Instance M_bind : MBind M := fun A B k m st =>
  match m st with
  | (Ok a, st') => k a st'
  | (Raise e, st') => (Raise e, st')
  end.

Definition raise {A} (e : exn) : M A := fun st => (Raise e, st).

Definition lift {A} (r : result A) : M A := fun st => (r, st).

(** [try: m] with the [except] clauses [h], as [try_except]. *)
Definition try_ {A} (m : M A) (h : exn -> option (M A)) : M A := fun st =>
  match m st with
  | (Ok a, st') => (Ok a, st')
  | (Raise e, st') => match h e with Some k => k st' | None => (Raise e, st') end
  end.

(** [self.stdout.write(self.style.X(...))] *)
Definition write (sty : style) (msg : message) : M unit := fun st =>
  (Ok tt, {| store := store st; stdout := stdout st ++ [(sty, msg)] |}).

(** ** The model and its manager *)

(** The normalized record a parser builds: the [poi_data] dict. Only the
    JSON parser supplies [description]. *)
Record poi_data := {
  external_id : option string;
  name : value;
  latitude : decimal;
  longitude : decimal;
  category : value;
  ratings : value;
  description : option value
}.

Definition str_or_none (o : option string) : value :=
  match o with Some s => VStr s | None => VNone end.

(** [poi_data.items()] *)
Definition items (d : poi_data) : list (string * field_value) :=
  [("external_id", FVal (str_or_none (external_id d)));
   ("name", FVal (name d));
   ("latitude", FDec (latitude d));
   ("longitude", FDec (longitude d));
   ("category", FVal (category d));
   ("ratings", FVal (ratings d))]
  ++ match description d with
     | Some v => [("description", FVal v)]
     | None => []
     end.

(** [for field, value in fields: setattr(obj, field, value)] *)
Definition setattr_all (fields : list (string * field_value))
    (obj : gmap string field_value) : gmap string field_value :=
  fold_left (fun o kv => <[fst kv := snd kv]> o) fields obj.

(** The columns of a new instance before its arguments are set: the
    defaults of the fields of [PointOfInterest]. *)
Definition field_defaults : gmap string field_value :=
  list_to_map
    [("external_id", FVal (VStr "")); ("name", FVal (VStr ""));
     ("latitude", FVal VNone); ("longitude", FVal VNone);
     ("category", FVal (VStr "")); ("ratings", FVal (VList []));
     ("description", FVal VNone)].

(** The [external_id] column of an instance, when it is a string. *)
Definition key_of (obj : gmap string field_value) : option string :=
  match obj !! "external_id" with
  | Some (FVal (VStr s)) => Some s
  | _ => None
  end.

(** A fetched or created instance: the key of its row and its columns. *)
Definition instance : Type := string * gmap string field_value.

(** [objects.get(external_id=...)]: [None] is [DoesNotExist]. *)
Definition objects_get (E : Env) (eid : option string) : M (option instance) := fun st =>
  if db_fault E (store st) (OpGet eid) then (Raise DatabaseError, st)
  else (Ok (match eid with
            | Some s => match store st !! s with Some row => Some (s, row) | None => None end
            | None => None
            end), st).

(** [objects.create] on [params]: the row is written unless the store
    refuses it, its [external_id] is not a string ([NOT NULL]) or is taken
    ([unique]). *)
Definition objects_create (E : Env) (params : list (string * field_value)) : M instance :=
  fun st =>
  let obj := setattr_all params field_defaults in
  if db_fault E (store st) (OpCreate obj) then (Raise DatabaseError, st)
  else match key_of obj with
       | Some s =>
           match store st !! s with
           | Some _ => (Raise DatabaseError, st)
           | None => (Ok (s, obj), {| store := <[s := obj]> (store st); stdout := stdout st |})
           end
       | None => (Raise DatabaseError, st)
       end.

(** [obj.save()]: the row is rewritten unless the store refuses it or its
    new [external_id] is not a string or is another row's. *)
Definition save (E : Env) (poi : instance) : M unit := fun st =>
  let '(pk, obj) := poi in
  if db_fault E (store st) (OpSave pk obj) then (Raise DatabaseError, st)
  else match key_of obj with
       | Some s =>
           if bool_decide (s ≠ pk) && bool_decide (is_Some (store st !! s))
           then (Raise DatabaseError, st)
           else (Ok tt, {| store := <[s := obj]> (delete pk (store st)); stdout := stdout st |})
       | None => (Raise DatabaseError, st)
       end.

(** [objects.get_or_create(external_id=eid, defaults=defaults)] *)
Definition get_or_create (E : Env) (eid : option string)
    (defaults : list (string * field_value)) : M (instance * bool) :=
  found ← objects_get E eid;
  match found with
  | Some poi => mret (poi, false)
  | None =>
      let params :=
        fold_left (fun d kv => Dict.set (fst kv) (snd kv) d) defaults
          [("external_id", FVal (str_or_none eid))] in
      poi ← objects_create E params;
      mret (poi, true)
  end.

(** ** [Command.save_poi] *)

(** The counters a call adds to: [(imported, skipped, updated)]. *)
Definition counts : Type := Z * Z * Z.

Definition add_counts (a b : counts) : counts :=
  let '(i, s, u) := a in let '(i', s', u') := b in (i + i', s + s', u + u').

(** The decorator [transaction.atomic] has nothing to undo here: a call
    writes to the store at most once, and a failed write leaves it as it
    was. *)
Definition reconcile (E : Env) (data : poi_data) (update_existing : bool) : M counts :=
  '(poi, created) ← get_or_create E (external_id data) (items data);
  if created : bool then mret (1, 0, 0)
  else if update_existing then
    save E (fst poi, setattr_all (items data) (snd poi));;
    mret (0, 0, 1)
  else mret (0, 1, 0).

(** The [try] statement around it: any exception is a skipped record. *)
Definition save_poi (E : Env) (data : poi_data) (update_existing : bool) : M counts :=
  try_ (reconcile E data update_existing)
    (fun e => Some (write WARNING (MsgErrorSaving (external_id data) e);; mret (0, 1, 0))).

(** ** The loops of the parsers *)

(** The [try] statement inside every loop: build [poi_data], call
    [save_poi] and add what it returns; on any exception write the warning
    [warn] chooses and add one to [skipped]. The result is what the pass
    adds to the counters. *)
Definition record (E : Env) (update_existing : bool) (warn : exn -> message)
    (data : result poi_data) : M counts :=
  try_
    (poi ← lift data; save_poi E poi update_existing)
    (fun e => Some (write WARNING (warn e);; mret (0, 1, 0))).

(** [for x in xs:] with a body that adds to the three counters. *)
Fixpoint for_each {R} (body : R -> M counts) (xs : list R) (c : counts) : M counts :=
  match xs with
  | [] => mret c
  | x :: r => d ← body x; for_each body r (add_counts c d)
  end.

(** [Decimal(x)] for a [str] or [None]. *)
Definition Decimal (x : option string) : result decimal :=
  match x with
  | Some s =>
      match Decimal_of_string s with
      | Some d => Ok d
      | None => Raise InvalidOperation
      end
  | None => Raise TypeError
  end.

(** *** CSV *)

(** A row of [csv.DictReader]: a cell is [None] where the line is shorter
    than the header. *)
Definition csv_row : Type := list (string * option string).

Fixpoint zip_cells (fieldnames : list string) (cells : list string) : csv_row :=
  match fieldnames, cells with
  | k :: ks, c :: cs => (k, Some c) :: zip_cells ks cs
  | _, _ => []
  end.

(** [dict(zip(fieldnames, row))], then [restval] for the fields the row
    does not reach. *)
Definition row_dict (fieldnames cells : list string) : csv_row :=
  fold_left (fun d k => Dict.set k None d) (drop (length cells) fieldnames)
    (Dict.of_pairs (zip_cells fieldnames cells)).

Definition is_nil {A} (l : list A) : bool :=
  match l with [] => true | _ => false end.

(** The rows [csv.DictReader] yields over what [csv.reader] yields: the
    first row names the fields, empty rows are passed over. *)
Definition DictReader (rows : list (list string)) : list csv_row :=
  match rows with
  | [] => []
  | fieldnames :: body =>
      map (row_dict fieldnames) (List.filter (fun r => negb (is_nil r)) body)
  end.

(** [row[k]] *)
Definition row_get (row : csv_row) (k : string) : result (option string) :=
  match Dict.get k row with
  | Some v => Ok v
  | None => Raise (KeyError k)
  end.

(** The dict literal of the CSV loops. *)
Definition csv_poi_data (row : csv_row) : result poi_data :=
  eid ← row_get row "poi_id";
  nm ← row_get row "poi_name";
  lat ← row_get row "poi_latitude" ≫= Decimal;
  lon ← row_get row "poi_longitude" ≫= Decimal;
  cat ← row_get row "poi_category";
  rat ← row_get row "poi_ratings" ≫= (fun r => parse_ratings (str_or_none r));
  Ok {| external_id := eid; name := str_or_none nm; latitude := lat; longitude := lon;
        category := str_or_none cat; ratings := rat; description := None |}.

(** The [except] clauses of the CSV loops; [source] is the name the
    warnings of [import_csv_from_content] carry. *)
Definition csv_warning (source : option string) (e : exn) : message :=
  match e with
  | KeyError _ => MsgMissingField "CSV" source e
  | _ => MsgRecordError "CSV" source e
  end.

(** The body of the CSV loops. *)
Definition csv_record (E : Env) (update_existing : bool) (source : option string)
    (row : csv_row) : M counts :=
  record E update_existing (csv_warning source) (csv_poi_data row).

Definition import_csv_from_content (E : Env) (content : string) (update_existing : bool)
    (source_name : string) : M counts :=
  try_
    (let lines := Str.splitlines content in
     if is_nil lines then
       write WARNING (MsgEmptyCSV source_name);; mret (0, 0, 0)
     else
       for_each (csv_record E update_existing (Some source_name))
         (DictReader (csv_reader E lines)) (0, 0, 0))
    (fun e => Some (raise (CommandError
       ("Error processing CSV content from " +:+ source_name) (Some e)))).

(** [open(file_path, 'r', encoding='utf-8')] *)
Definition open (E : Env) (file_path : string) : M string :=
  match read_file E file_path with
  | Some content => mret content
  | None => raise OSError
  end.

Definition import_csv (E : Env) (file_path : string) (update_existing : bool) : M counts :=
  content ← open E file_path;
  for_each (csv_record E update_existing None)
    (DictReader (csv_reader E (Str.readlines content))) (0, 0, 0).

(** *** JSON *)

(** [str(v)] *)
Definition py_str (E : Env) (v : value) : string :=
  match v with
  | VStr s => s
  | VInt z => pretty z
  | VBool true => "True"
  | VBool false => "False"
  | VNone => "None"
  | _ => py_repr E v
  end.

(** [v[k]] for a string [k]. *)
Definition subscript (v : value) (k : string) : result value :=
  match v with
  | VDict d =>
      match Dict.get k d with
      | Some x => Ok x
      | None => Raise (KeyError k)
      end
  | _ => Raise TypeError
  end.

(** [item.get(k, default)], reached only when [item] is a dict. *)
Definition dict_get_default (v : value) (k : string) (default : value) : result value :=
  match v with
  | VDict d => Ok (match Dict.get k d with Some x => x | None => default end)
  | _ => Raise AttributeError
  end.

(** The dict literal of the JSON loop. *)
Definition json_poi_data (E : Env) (item : value) : result poi_data :=
  eid ← subscript item "id";
  nm ← subscript item "name";
  lat ← (c ← subscript item "coordinates"; x ← subscript c "latitude";
         Decimal (Some (py_str E x)));
  lon ← (c ← subscript item "coordinates"; x ← subscript c "longitude";
         Decimal (Some (py_str E x)));
  cat ← subscript item "category";
  rat ← subscript item "ratings" ≫= parse_ratings;
  des ← dict_get_default item "description" (VStr "");
  Ok {| external_id := Some (py_str E eid); name := nm; latitude := lat; longitude := lon;
        category := cat; ratings := rat; description := Some des |}.

Definition json_warning (source : string) (e : exn) : message :=
  match e with
  | KeyError _ => MsgMissingField "JSON" (Some source) e
  | _ => MsgRecordError "JSON" (Some source) e
  end.

Definition json_record (E : Env) (update_existing : bool) (source : string)
    (item : value) : M counts :=
  record E update_existing (json_warning source) (json_poi_data E item).

(** What [for item in data] iterates over, after a single object was
    wrapped in a list: [TypeError] when [data] is not iterable. *)
Definition json_items (data : value) : result (list value) :=
  match data with
  | VDict _ => Ok [data]
  | VList l => Ok l
  | VStr s => Ok (map VStr (Str.chars s))
  | _ => Raise TypeError
  end.

Definition import_json_from_content (E : Env) (content : string) (update_existing : bool)
    (source_name : string) : M counts :=
  try_
    (data ← lift (json_loads content);
     its ← lift (json_items data);
     for_each (json_record E update_existing source_name) its (0, 0, 0))
    (fun e => Some (
       match e with
       | JSONDecodeError =>
           raise (CommandError ("Invalid JSON content from " +:+ source_name) (Some e))
       | _ =>
           raise (CommandError ("Error processing JSON content from " +:+ source_name) (Some e))
       end)).

Definition import_json (E : Env) (file_path : string) (update_existing : bool) : M counts :=
  content ← open E file_path;
  import_json_from_content E content update_existing file_path.

(** *** XML *)

Definition tag_of (e : Element) : string := match e with Elem t _ _ => t end.
Definition text_of (e : Element) : option string := match e with Elem _ t _ => t end.
Definition children_of (e : Element) : list Element := match e with Elem _ _ c => c end.

(** The elements below [e] in document order, [e] itself apart. *)
Fixpoint descendants (e : Element) : list Element :=
  match e with
  | Elem _ _ cs => flat_map (fun c => c :: descendants c) cs
  end.

(** [e.findall('.//tag')] *)
Definition findall (tag : string) (e : Element) : list Element :=
  List.filter (fun d => String.eqb (tag_of d) tag) (descendants e).

(** [e.find(tag)]: the first child with the tag. *)
Definition find (tag : string) (e : Element) : option Element :=
  List.find (fun c => String.eqb (tag_of c) tag) (children_of e).

(** [e.find(tag).text] *)
Definition find_text (e : Element) (tag : string) : result (option string) :=
  match find tag e with
  | Some c => Ok (text_of c)
  | None => Raise AttributeError
  end.

(** [a or b] on lists. *)
Definition list_or {A} (a b : list A) : list A := if is_nil a then b else a.

(** The dict literal of the XML loops. *)
Definition xml_poi_data (poi_element : Element) : result poi_data :=
  eid ← find_text poi_element "pid";
  nm ← find_text poi_element "pname";
  lat ← find_text poi_element "platitude" ≫= Decimal;
  lon ← find_text poi_element "plongitude" ≫= Decimal;
  cat ← find_text poi_element "pcategory";
  rat ← find_text poi_element "pratings" ≫= (fun r => parse_ratings (str_or_none r));
  Ok {| external_id := eid; name := str_or_none nm; latitude := lat; longitude := lon;
        category := str_or_none cat; ratings := rat; description := None |}.

Definition xml_warning (source : option string) (e : exn) : message :=
  match e with
  | AttributeError => MsgMissingField "XML" source e
  | _ => MsgRecordError "XML" source e
  end.

Definition xml_record (E : Env) (update_existing : bool) (source : option string)
    (poi_element : Element) : M counts :=
  record E update_existing (xml_warning source) (xml_poi_data poi_element).

Definition fromstring (E : Env) (content : string) : M Element :=
  match ET_fromstring E content with
  | Some root => mret root
  | None => raise ParseError
  end.

(** The elements [import_xml_from_content] loops over: the first of the
    four searches that finds something, else the root alone. *)
Definition content_poi_elements (root : Element) : list Element :=
  let poi_elements :=
    list_or (findall "poi" root) (list_or (findall "point" root)
      (list_or (findall "item" root) (findall "DATA_RECORD" root))) in
  if is_nil poi_elements then [root] else poi_elements.

(** The elements [import_xml] loops over: three searches, else the root
    alone. *)
Definition file_poi_elements (root : Element) : list Element :=
  let poi_elements :=
    list_or (findall "poi" root) (list_or (findall "point" root) (findall "item" root)) in
  if is_nil poi_elements then [root] else poi_elements.

(** The counters are returned after the [try] statement; the loop raises
    nothing (its body catches [Exception]), so they are zero whenever the
    [except] clause runs. *)
Definition import_xml_from_content (E : Env) (content : string) (update_existing : bool)
    (source_name : string) : M counts :=
  try_
    (root ← fromstring E content;
     let poi_elements := content_poi_elements root in
     if is_nil poi_elements then raise ParseError
     else for_each (xml_record E update_existing (Some source_name)) poi_elements (0, 0, 0))
    (fun e =>
       match e with
       | ParseError | AttributeError | ValueError | JSONDecodeError =>
           Some (write PLAIN (MsgXMLParsingFailed e);; mret (0, 0, 0))
       | _ => None
       end).

(** [ET.parse(file_path).getroot()] *)
Definition parse_file (E : Env) (file_path : string) : M Element :=
  content ← open E file_path; fromstring E content.

Definition import_xml (E : Env) (file_path : string) (update_existing : bool) : M counts :=
  try_
    (root ← parse_file E file_path;
     for_each (xml_record E update_existing None) (file_poi_elements root) (0, 0, 0))
    (fun e =>
       match e with
       | ParseError => Some (raise (CommandError "Invalid XML file" (Some e)))
       | _ => None
       end).

(** ** Choosing the parser, and the command *)

Inductive format := CSV | JSON | XML.

(** The [if]/[elif] chain of [import_from_url]. *)
Definition remote_format (content_type url : string) : option format :=
  if Str.contains "csv" content_type || Str.endswith ".csv" (Str.lower url) then Some CSV
  else if Str.contains "json" content_type || Str.endswith ".json" (Str.lower url) then Some JSON
  else if Str.contains "xml" content_type || Str.endswith ".xml" (Str.lower url) then Some XML
  else None.

(** [requests.get(url, timeout=30)] and [response.raise_for_status()] *)
Definition fetch (E : Env) (url : string) : M Response :=
  match requests_get E url with
  | Some response => mret response
  | None => raise RequestException
  end.

(** The [except] clauses of [import_from_url]: what they raise for [e]. *)
Definition url_error (url : string) (e : exn) : exn :=
  match e with
  | RequestException => CommandError ("Failed to download from URL " +:+ url) (Some e)
  | _ => CommandError ("Error processing URL " +:+ url) (Some e)
  end.

Definition import_from_url (E : Env) (url : string) (update_existing : bool) : M counts :=
  try_
    (write PLAIN (MsgDownloading url);;
     response ← fetch E url;
     let content_type :=
       Str.lower (match content_type_header response with Some h => h | None => "" end) in
     match remote_format content_type url with
     | Some CSV => import_csv_from_content E (text response) update_existing url
     | Some JSON => import_json_from_content E (text response) update_existing url
     | Some XML => import_xml_from_content E (text response) update_existing url
     | None => raise (CommandError ("Could not determine file type for URL: " +:+ url) None)
     end)
    (fun e => Some (raise (url_error url e))).

(** [Path(file_path).name]: the last component, empty and [.] components
    apart. *)
Definition path_name (file_path : string) : string :=
  default "" (last (List.filter (fun p => negb (Str.is_empty p || String.eqb p "."))
                      (Str.split "/" file_path))).

(** [Path(file_path).suffix]: from the last point of the name, when the
    point is neither its first nor its last character. *)
Definition path_suffix (file_path : string) : string :=
  match Str.partition "." (Str.rev (path_name file_path)) with
  | Some (ext, stem) =>
      if Str.is_empty ext || Str.is_empty stem then "" else String "." (Str.rev ext)
  | None => ""
  end.

Definition is_url (file_path : string) : bool :=
  Str.startswith "http://" file_path || Str.startswith "https://" file_path.

Definition import_file (E : Env) (file_path : string) (update_existing : bool) : M counts :=
  if is_url file_path then import_from_url E file_path update_existing
  else
    let extension := Str.lower (path_suffix file_path) in
    if String.eqb extension ".csv" then import_csv E file_path update_existing
    else if String.eqb extension ".json" then import_json E file_path update_existing
    else if String.eqb extension ".xml" then import_xml E file_path update_existing
    else raise (CommandError ("Unsupported file format: " +:+ extension) None).

(** The body of the loop of [handle]: the running totals after one source. *)
Definition handle_source (E : Env) (update_existing : bool) (totals : counts)
    (file_path : string) : M counts :=
  try_
    (r ← import_file E file_path update_existing;
     let '(imported, skipped, updated) := r in
     write SUCCESS (MsgProcessed file_path imported skipped updated);;
     mret (add_counts totals r))
    (fun e => Some (write ERROR (MsgErrorProcessing file_path e);; mret totals)).

Fixpoint handle_loop (E : Env) (update_existing : bool) (file_paths : list string)
    (totals : counts) : M counts :=
  match file_paths with
  | [] => mret totals
  | file_path :: rest =>
      totals' ← handle_source E update_existing totals file_path;
      handle_loop E update_existing rest totals'
  end.

Definition handle (E : Env) (file_paths : list string) (update_existing : bool) : M unit :=
  totals ← handle_loop E update_existing file_paths (0, 0, 0);
  let '(total_imported, total_skipped, total_updated) := totals in
  write SUCCESS (MsgTotal total_imported total_skipped total_updated).

(** ** A reference world for concrete runs *)

(** [csv.reader] with the default dialect: comma, double quote, doubled
    quotes inside quoted fields, not strict. *)
Module Csv.

Inductive mode :=
| START_RECORD | START_FIELD | IN_FIELD | IN_QUOTED_FIELD | QUOTE_IN_QUOTED_FIELD | EAT_CRNL.

(** The parser: its mode, the field being read and the fields read, both
    latest first. *)
Record parser := {
  mode_of : mode;
  field : string;
  fields : list string
}.

Definition reset : parser := {| mode_of := START_RECORD; field := ""; fields := [] |}.

Definition add_char (c : ascii) (m : mode) (p : parser) : parser :=
  {| mode_of := m; field := String c (field p); fields := fields p |}.

Definition save_field (m : mode) (p : parser) : parser :=
  {| mode_of := m; field := ""; fields := Str.rev (field p) :: fields p |}.

Definition set_mode (m : mode) (p : parser) : parser :=
  {| mode_of := m; field := field p; fields := fields p |}.

Definition is_eol (c : ascii) : bool := Ascii.eqb c "010" || Ascii.eqb c "013".

Definition start_field (c : option ascii) (p : parser) : parser :=
  match c with
  | None => save_field START_RECORD p
  | Some ch =>
      if is_eol ch then save_field EAT_CRNL p
      else if Ascii.eqb ch "034" then set_mode IN_QUOTED_FIELD p
      else if Ascii.eqb ch "," then save_field START_FIELD p
      else add_char ch IN_FIELD p
  end.

(** One character of a line, or the end of the line. A character other
    than a line end after a line end inside a line is an error of the
    reader; the lines of [splitlines] and of a text file have none, and
    the model stays where it is. *)
Definition process_char (c : option ascii) (p : parser) : parser :=
  match mode_of p with
  | START_RECORD =>
      match c with
      | None => p
      | Some ch => if is_eol ch then set_mode EAT_CRNL p else start_field c p
      end
  | START_FIELD => start_field c p
  | IN_FIELD =>
      match c with
      | None => save_field START_RECORD p
      | Some ch =>
          if is_eol ch then save_field EAT_CRNL p
          else if Ascii.eqb ch "," then save_field START_FIELD p
          else add_char ch IN_FIELD p
      end
  | IN_QUOTED_FIELD =>
      match c with
      | None => p
      | Some ch =>
          if Ascii.eqb ch "034" then set_mode QUOTE_IN_QUOTED_FIELD p
          else add_char ch IN_QUOTED_FIELD p
      end
  | QUOTE_IN_QUOTED_FIELD =>
      match c with
      | None => save_field START_RECORD p
      | Some ch =>
          if Ascii.eqb ch "034" then add_char ch IN_QUOTED_FIELD p
          else if Ascii.eqb ch "," then save_field START_FIELD p
          else if is_eol ch then save_field EAT_CRNL p
          else add_char ch IN_FIELD p
      end
  | EAT_CRNL =>
      match c with
      | None => set_mode START_RECORD p
      | Some _ => p
      end
  end.

Fixpoint process_line (line : string) (p : parser) : parser :=
  match line with
  | EmptyString => process_char None p
  | String c r => process_line r (process_char (Some c) p)
  end.

(** The rows of the lines: a row ends with the line that leaves the
    parser at the start of a record; input that ends inside a quoted field
    ends the row there. *)
Fixpoint rows_from (lines : list string) (p : parser) : list (list string) :=
  match lines with
  | [] =>
      match mode_of p with
      | IN_QUOTED_FIELD => [rev (fields (save_field START_RECORD p))]
      | _ => []
      end
  | line :: rest =>
      let p' := process_line line p in
      match mode_of p' with
      | START_RECORD => rev (fields p') :: rows_from rest reset
      | _ => rows_from rest p'
      end
  end.

Definition reader (lines : list string) : list (list string) := rows_from lines reset.

End Csv.

(** A world with the reference CSV reader, files and responses by name,
    an XML parser given by its table, and a store in which the operations
    listed in [faults] fail. *)
Definition world (files : list (string * string)) (pages : list (string * Response))
    (documents : list (string * Element)) (faults : db_op -> bool) : Env := {|
  py_repr := fun _ => "?";
  csv_reader := Csv.reader;
  ET_fromstring := fun content => Dict.get content documents;
  read_file := fun file_path => Dict.get file_path files;
  requests_get := fun url => Dict.get url pages;
  db_fault := fun _ op => faults op
|}.

Definition no_faults : db_op -> bool := fun _ => false.

Definition empty_state : state := {| store := ∅; stdout := [] |}.

(** The floats 1.0, 2.0, 3.0 and 4.5. *)
Definition f1 : spec_float := S754_finite false 4503599627370496 (-52).
Definition f2 : spec_float := S754_finite false 4503599627370496 (-51).
Definition f3 : spec_float := S754_finite false 6755399441055744 (-51).
Definition f4_5 : spec_float := S754_finite false 5066549580791808 (-50).

(** ** Statements the theorems share *)


(** The row holds every field the record supplies. *)
Definition holds_fields (data : poi_data) (row : gmap string field_value) : Prop :=
  ∀ k v, (k, v) ∈ items data → row !! k = Some v.


(** [st] after one more line of output. *)
Definition wrote (st : state) (sty : style) (msg : message) : state :=
  {| store := store st; stdout := stdout st ++ [(sty, msg)] |}.

(** A store in which every [create] fails. *)
Definition create_fails : db_op -> bool :=
  fun op => match op with OpCreate _ => true | _ => false end.

Definition cafe : poi_data := {|
  external_id := Some "42";
  name := VStr "Cafe";
  latitude := DecFinite false 4885 (-2);
  longitude := DecFinite false 235 (-2);
  category := VStr "food";
  ratings := VList [VFloat f3; VFloat f4_5];
  description := None
|}.

(** One record attempt: exactly one counter goes up by one. *)
Definition one_outcome (c : counts) : Prop :=
  c = (1, 0, 0) ∨ c = (0, 1, 0) ∨ c = (0, 0, 1).

(** [imported + skipped + updated] *)
Definition total (c : counts) : Z := let '(i, s, u) := c in i + s + u.

(** The records each kind of source holds: what its loop iterates over. *)
Definition csv_content_records (E : Env) (content : string) : list csv_row :=
  let lines := Str.splitlines content in
  if is_nil lines then [] else DictReader (csv_reader E lines).


Definition json_content_records (content : string) : result (list value) :=
  data ← json_loads content; json_items data.

(** Processing the record fails in the state [st]: building it raises, or
    the store call inside [save_poi] does. *)
Definition record_fails (E : Env) (update_existing : bool) (data : result poi_data)
    (st : state) : Prop :=
  match data with
  | Raise _ => True
  | Ok d => ∃ e st', reconcile E d update_existing st = (Raise e, st')
  end.

(** The columns the CSV loops read. *)
Definition csv_columns : list string :=
  ["poi_id"; "poi_name"; "poi_latitude"; "poi_longitude"; "poi_category"; "poi_ratings"].

(** The row has no usable numeral in column [k]: no such column, a line
    too short to reach it, or text that is no numeral. *)
Definition numeral_missing (k : string) (row : csv_row) : Prop :=
  match Dict.get k row with
  | Some (Some s) => Decimal_of_string s = None
  | Some None => True
  | None => True
  end.

Definition latitude_missing (row : csv_row) : Prop := numeral_missing "poi_latitude" row.

(** A required field is missing or a coordinate is no numeral. *)
Definition csv_row_incomplete (row : csv_row) : Prop :=
  (∃ k, k ∈ csv_columns ∧ Dict.get k row = None) ∨
  numeral_missing "poi_latitude" row ∨ numeral_missing "poi_longitude" row.




(** A file of three rows; the second has no latitude. *)
Definition sample_csv : string :=
  "poi_id,poi_name,poi_category,poi_latitude,poi_longitude,poi_ratings" +:+ String "010" (
  "1,Cafe,food,48.85,2.35,{4.0}" +:+ String "010" (
  "2,Bar,food,,2.36,{3.0}" +:+ String "010" (
  "3,Pub,food,48.86,2.37,[3]" +:+ String "010" ""))).

Definition sample_world : Env := world [("pois.csv", sample_csv)] [] [] no_faults.

(** Its rows, as [csv.DictReader] yields them. *)
Definition cafe_row : csv_row :=
  [("poi_id", Some "1"); ("poi_name", Some "Cafe"); ("poi_category", Some "food");
   ("poi_latitude", Some "48.85"); ("poi_longitude", Some "2.35");
   ("poi_ratings", Some "{4.0}")].

Definition bar_row : csv_row :=
  [("poi_id", Some "2"); ("poi_name", Some "Bar"); ("poi_category", Some "food");
   ("poi_latitude", Some ""); ("poi_longitude", Some "2.36");
   ("poi_ratings", Some "{3.0}")].

Definition pub_row : csv_row :=
  [("poi_id", Some "3"); ("poi_name", Some "Pub"); ("poi_category", Some "food");
   ("poi_latitude", Some "48.86"); ("poi_longitude", Some "2.37");
   ("poi_ratings", Some "[3]")].

(** The state after the first row was imported into an empty store. *)
Definition after_cafe : state :=
  (for_each (csv_record sample_world false None) [cafe_row] (0, 0, 0) empty_state).2.



(** The rational a finite float stands for. *)
Definition float_Q (f : spec_float) : option Q :=
  match f with
  | S754_zero _ => Some 0%Q
  | S754_finite s m e => Some (inject_Z (cond_Zopp s (Zpos m)) * Qpower 2 e)%Q
  | _ => None
  end.

(** [f] is the float of the rational [q]. *)
Definition float_is (f : spec_float) (q : Q) : Prop :=
  match float_Q f with Some x => Qeq x q | None => False end.

(** What [+] and [/] take: [int], [bool] and [float]. *)
Definition arithmetic (v : value) : bool :=
  match operand_of v with ONone => false | _ => true end.

(** [sum] from a running total. *)
Definition sum_from (acc : result value) (l : list value) : result value :=
  fold_left (fun acc x => a ← acc; py_add a x) l acc.

(** The [try] block of [average_rating]. *)
Definition average_body (ratings : value) : result spec_float :=
  if negb (truthy ratings) then Ok zero
  else if is_int_or_float ratings then float_num ratings
  else match ratings with
       | VList l => total ← py_sum l; py_truediv total (VInt (Z.of_nat (length l)))
       | _ => Ok zero
       end.




(** The format is named: by the content type or by the end of the URL. *)
Definition names (what extension content_type url : string) : bool :=
  Str.contains what content_type || Str.endswith extension (Str.lower url).

(** What the handler of [import_from_url] makes of a parser's result. *)
Definition url_result (url : string) (r : result counts * state) : result counts * state :=
  match r with
  | (Ok c, st) => (Ok c, st)
  | (Raise e, st) => (Raise (url_error url e), st)
  end.

(** A JSON response served under a URL that ends in [.csv]. *)
Definition export_url : string := "https://example.com/export.csv".

(** [s] between double quotes. *)
Definition quoted (s : string) : string := String "034" (s +:+ String "034" "").

(** One POI as a JSON array of one object. *)
Definition export_json : string :=
  "[{" +:+ quoted "id" +:+ ": 5, " +:+ quoted "name" +:+ ": " +:+ quoted "Cafe" +:+ ", "
  +:+ quoted "coordinates" +:+ ": {" +:+ quoted "latitude" +:+ ": " +:+ quoted "48.85" +:+ ", "
  +:+ quoted "longitude" +:+ ": " +:+ quoted "2.35" +:+ "}, "
  +:+ quoted "category" +:+ ": " +:+ quoted "food" +:+ ", "
  +:+ quoted "ratings" +:+ ": [4, 5]}]".

Definition export_page : Response :=
  {| content_type_header := Some "application/json"; text := export_json |}.

(** An XML document that does not parse, as a local file and as a page. *)
Definition broken_xml : string := "<pois><poi>".

Definition feed_url : string := "https://example.com/feed".

Definition feed_page : Response :=
  {| content_type_header := Some "application/xml"; text := broken_xml |}.

(** A document whose records are [DATA_RECORD] elements. *)
Definition field (tag text : string) : Element := Elem tag (Some text) [].

Definition data_record (pid pname : string) : Element :=
  Elem "DATA_RECORD" None
    [field "pid" pid; field "pname" pname; field "platitude" "48.85";
     field "plongitude" "2.35"; field "pcategory" "food"; field "pratings" "{4.0}"].

Definition records_root : Element :=
  Elem "DATA" None [data_record "7" "Cafe"; data_record "8" "Bar"].

Definition record_xml (pid pname : string) : string :=
  "<DATA_RECORD><pid>" +:+ pid +:+ "</pid><pname>" +:+ pname +:+ "</pname>"
  +:+ "<platitude>48.85</platitude><plongitude>2.35</plongitude>"
  +:+ "<pcategory>food</pcategory><pratings>{4.0}</pratings></DATA_RECORD>".

Definition records_xml : string :=
  "<DATA>" +:+ record_xml "7" "Cafe" +:+ record_xml "8" "Bar" +:+ "</DATA>".

Definition records_url : string := "https://example.com/records.xml".

(** The world of the examples: the CSV file, the three XML sources and the
    JSON page; the only document the XML parser accepts is [records_xml]. *)
Definition web : Env :=
  world [("pois.csv", sample_csv); ("broken.xml", broken_xml); ("records.xml", records_xml)]
        [(export_url, export_page); (feed_url, feed_page);
         (records_url, {| content_type_header := Some "text/xml"; text := records_xml |})]
        [(records_xml, records_root)]
        no_faults.

(** The run of [handle] over the sources, one step per source: a source
    that is processed gets its line and its counters, a source whose import
    raises gets an error line, and either way the next source runs in the
    state the previous one left. *)
Inductive sources_run (E : Env) (update_existing : bool)
    : list string -> state -> list (result counts) -> state -> Prop :=
| run_done st :
    sources_run E update_existing [] st [] st
| run_processed file_path rest st imported skipped updated st1 outs st2 :
    import_file E file_path update_existing st = (Ok (imported, skipped, updated), st1) ->
    sources_run E update_existing rest
      (wrote st1 SUCCESS (MsgProcessed file_path imported skipped updated)) outs st2 ->
    sources_run E update_existing (file_path :: rest) st
      (Ok (imported, skipped, updated) :: outs) st2
| run_failed file_path rest st e st1 outs st2 :
    import_file E file_path update_existing st = (Raise e, st1) ->
    sources_run E update_existing rest
      (wrote st1 ERROR (MsgErrorProcessing file_path e)) outs st2 ->
    sources_run E update_existing (file_path :: rest) st (Raise e :: outs) st2.

(** The sum of the counters of the sources that were processed. *)
Definition sum_processed (outs : list (result counts)) : counts :=
  foldr (fun out acc => match out with Ok c => add_counts c acc | Raise _ => acc end)
    (0, 0, 0) outs.

(** A URL nothing answers under. *)
Definition dead_url : string := "https://unreachable.example/pois.json".


(** A computation that deletes no row: every key of the store before is a
    key of the store after. *)
Definition keeps_rows {A} (m : M A) : Prop :=
  ∀ st, dom (store st) ⊆ dom (store (m st).2).



(** ** Proof steps *)

Ltac unfold_M :=
  unfold mbind, mret, M_bind, M_ret, try_, lift, raise, write in *.

(** ** [PointOfInterestAdmin.average_rating_display] *)

(** [n / d] rounded to the nearest integer, ties to even, for [0 <= n] and
    [0 < d]. *)
Definition round_half_even (n d : Z) : Z :=
  let q := n / d in
  let r := n mod d in
  if 2 * r <? d then q
  else if d <? 2 * r then q + 1
  else if Z.even q then q else q + 1.

(** The hundredths nearest to [m * 2 ^ e]. *)
Definition hundredths (m : positive) (e : Z) : Z :=
  if 0 <=? e then Zpos m * 2 ^ e * 100
  else round_half_even (Zpos m * 100) (2 ^ (- e)).

Definition two_digits (n : Z) : string :=
  if n <? 10 then "0" +:+ pretty n else pretty n.

(** A sign, the integer part, a point and two digits. *)
Definition fixed2 (neg : bool) (h : Z) : string :=
  (if neg then "-" else "") +:+ pretty (h / 100) +:+ "." +:+ two_digits (h mod 100).

(** The format [.2f] of a float: the decimal with two places nearest to its
    exact value, ties to even; the sign of a negative zero is kept. *)
Definition format_2f (f : spec_float) : string :=
  match f with
  | S754_zero s => fixed2 s 0
  | S754_infinity s => if s then "-inf" else "inf"
  | S754_nan => "nan"
  | S754_finite s m e => fixed2 s (hundredths m e)
  end.

(** The column of the admin list, as a function of [obj.ratings]: the bare
    [except] turns whatever [average_rating] raises into the text 0.00. *)
Definition average_rating_display (ratings : value) : string :=
  match average_rating ratings with
  | Ok f => format_2f f
  | Raise _ => "0.00"
  end.

(** ** More statements the theorems share *)

(** Ratings that hold no average: a falsy value, a value that is neither a
    number nor a list, or a list with an item that is no number. *)
Definition no_average (ratings : value) : Prop :=
  truthy ratings = false ∨
  (is_int_or_float ratings = false ∧ ∀ l, ratings ≠ VList l) ∨
  (∃ l, ratings = VList l ∧ Exists (fun x => arithmetic x = false) l).

(** A computation that takes the store along [R]: the store after is
    related to the store before. *)
Definition moves (R : relation (gmap string (gmap string field_value))) {A} (m : M A) : Prop :=
  ∀ st, R (store st) (store (m st).2).

(** The row [k] is the same in both stores. *)
Definition same_row (k : string) : relation (gmap string (gmap string field_value)) :=
  fun s s' => s' !! k = s !! k.

(** Two outcomes that agree but for what was written: the same result and
    the same store. *)
Definition same_outcome {A} (r r' : result A * state) : Prop :=
  r.1 = r'.1 ∧ store r.2 = store r'.2.

(** Two computations that agree, but for what they write, whenever they
    start from the same store. *)
Definition reads_store_only {A} (m m' : M A) : Prop :=
  ∀ st st', store st = store st' → same_outcome (m st) (m' st').








(** ** More sample data *)


(** A CSV file whose header has no [poi_name]. *)
Definition nameless_csv : string :=
  "poi_id,poi_category,poi_latitude,poi_longitude,poi_ratings" +:+ String "010" (
  "1,food,48.85,2.35,{4.0}" +:+ String "010" (
  "2,food,48.86,2.36,{3.0}" +:+ String "010" "")).

(** An XML document whose records are [poi] elements. *)
Definition poi_element (pid pname : string) : Element :=
  Elem "poi" None (children_of (data_record pid pname)).

Definition pois_root : Element :=
  Elem "pois" None [poi_element "7" "Cafe"; poi_element "8" "Bar"].

Definition poi_xml (pid pname : string) : string :=
  "<poi><pid>" +:+ pid +:+ "</pid><pname>" +:+ pname +:+ "</pname>"
  +:+ "<platitude>48.85</platitude><plongitude>2.35</plongitude>"
  +:+ "<pcategory>food</pcategory><pratings>{4.0}</pratings></poi>".

Definition pois_xml : string :=
  "<pois>" +:+ poi_xml "7" "Cafe" +:+ poi_xml "8" "Bar" +:+ "</pois>".

(** A world with these two files; the XML parser reads [pois_xml] as
    [pois_root]. *)
Definition library : Env :=
  world [("nameless.csv", nameless_csv); ("pois.xml", pois_xml)] []
        [(pois_xml, pois_root)] no_faults.



(** * Checks on concrete inputs *)

Example lower_mixed : Str.lower "Data.CSV" = "data.csv".
Proof. reflexivity. Qed.

Example endswith_csv : Str.endswith ".csv" "http://h/a.csv" = true.
Proof. reflexivity. Qed.

Example split_empty : Str.split "," "" = [""].
Proof. reflexivity. Qed.

Example split_three : Str.split "," "1,,3" = ["1"; ""; "3"].
Proof. reflexivity. Qed.

Example strip_braces : Str.strip_chars "{}" "{1,2,3}" = "1,2,3".
Proof. reflexivity. Qed.

Example float_4_5 : float_of_string "4.5" = Some (S754_finite false 5066549580791808 (-50)).
Proof. reflexivity. Qed.

Example float_one : float_of_string " 1 " = Some (S754_finite false 4503599627370496 (-52)).
Proof. reflexivity. Qed.

Example float_tenth : float_of_string "0.1" = Some (S754_finite false 7205759403792794 (-56)).
Proof. reflexivity. Qed.

Example float_big : float_of_string "1e400" = Some (S754_infinity false).
Proof. vm_compute. reflexivity. Qed.

Example float_bad : float_of_string "abc" = None /\ float_of_string "" = None
  /\ float_of_string "1__0" = None /\ float_of_string "1e" = None /\ float_of_string "." = None.
Proof. repeat split; reflexivity. Qed.

Example float_underscore : float_of_string "1_0" = float_of_string "10".
Proof. reflexivity. Qed.

Example decimal_ok : Decimal_of_string "48.8584" = Some (DecFinite false 488584 (-4)).
Proof. reflexivity. Qed.

Example decimal_bad : Decimal_of_string "" = None /\ Decimal_of_string "north" = None.
Proof. split; reflexivity. Qed.

Example decimal_nan : Decimal_of_string "NaN" = Some (DecNaN false false 0).
Proof. reflexivity. Qed.

Example loads_list : Json.loads "[1,2,3]" = Some (VList [VInt 1; VInt 2; VInt 3]).
Proof. reflexivity. Qed.

Example loads_nested : Json.loads " [1, [2.0, null], {}] "
  = Some (VList [VInt 1; VList [VFloat f2; VNone]; VDict []]).
Proof. reflexivity. Qed.

Example loads_float : Json.loads "4.5" = Some (VFloat f4_5).
Proof. reflexivity. Qed.

Example loads_braces : Json.loads "{1,2,3}" = None.
Proof. reflexivity. Qed.

Example loads_bad : Json.loads "" = None /\ Json.loads "[1,]" = None /\ Json.loads "01" = None
  /\ Json.loads "1." = None /\ Json.loads "[1 2]" = None /\ Json.loads "abc" = None.
Proof. repeat split; reflexivity. Qed.

Example ratings_json_list : parse_ratings (VStr "[1,2,3]") = Ok (VList [VInt 1; VInt 2; VInt 3]).
Proof. reflexivity. Qed.

Example ratings_braces : parse_ratings (VStr "{1,2,3}") = Ok (VList [VFloat f1; VFloat f2; VFloat f3]).
Proof. reflexivity. Qed.

Example ratings_scalar : parse_ratings (VStr "4.5") = Ok (VFloat f4_5).
Proof. reflexivity. Qed.

Example ratings_empty : parse_ratings (VStr "") = Ok (VList []).
Proof. reflexivity. Qed.

Example average_123 : average_rating (VList [VInt 1; VInt 2; VInt 3]) = Ok f2.
Proof. reflexivity. Qed.

Example average_floats : average_rating (VList [VFloat f1; VFloat f2; VFloat f3]) = Ok f2.
Proof. reflexivity. Qed.

Example average_huge : average_rating (VList [VInt (10 ^ 400)]) = Raise OverflowError.
Proof. vm_compute. reflexivity. Qed.

Example average_scalar : average_rating (VFloat f4_5) = Ok f4_5.
Proof. reflexivity. Qed.

Example average_strings : average_rating (VList [VStr "a"]) = Ok zero.
Proof. reflexivity. Qed.

(** The largest integer that still has a float, and the first that has
    none: where [float_int] and [int_true_divide] raise is where rounding
    leaves the floats. *)
Example overflow_boundary :
  float_of_Z (overflow_threshold - 1) = S754_finite false 9007199254740991 971 ∧
  float_of_Z overflow_threshold = S754_infinity false ∧
  float_int (overflow_threshold - 1) = Ok (S754_finite false 9007199254740991 971) ∧
  float_int overflow_threshold = Raise OverflowError ∧
  fdiv (S754_finite false (Z.to_pos (3 * overflow_threshold)) 0) (S754_finite false 3 0)
    = S754_infinity false ∧
  int_true_divide (3 * overflow_threshold - 1) 3 = Ok (S754_finite false 9007199254740991 971) ∧
  int_true_divide (3 * overflow_threshold) 3 = Raise OverflowError.
Proof. repeat split; vm_compute; reflexivity. Qed.


#[local] Arguments items : simpl never.
#[local] Arguments setattr_all : simpl never.

(** * [parse_ratings] *)

Example floats_named :
  float_is f1 1 ∧ float_is f2 2 ∧ float_is f3 3 ∧ float_is f4_5 (9 # 2)%Q.
Proof. repeat split. Qed.

Lemma float_pieces_floats pieces :
  match float_pieces pieces with
  | Ok vs => ∃ fs, vs = map VFloat fs
  | Raise e => e = ValueError
  end.
Proof.
  induction pieces as [|x r IH]; simpl.
  - by exists [].
  - destruct (Str.is_empty x); [done|].
    unfold float_str, mbind, result_bind.
    destruct (float_of_string (Str.strip x)) as [f|]; [|done].
    destruct (float_pieces r) as [vs|e]; [|done].
    destruct IH as [fs ->]. by exists (f :: fs).
Qed.

(** What [parse_ratings] returns for each kind of input. *)
Lemma parse_ratings_cases (ratings_data : value) :
  ∃ r, parse_ratings ratings_data = Ok r ∧
       match ratings_data with
       | VList _ => r = ratings_data
       | VStr s =>
           match Json.loads s with
           | None => ∃ fs, r = VList (map VFloat fs)
           | Some j => r = j
           end
       | _ => r = VList []
       end.
Proof.
  destruct ratings_data as [| b | z | f | s | l | d]; simpl; eauto.
  unfold json_loads. destruct (Json.loads s) as [j|]; simpl; [eauto|].
  pose proof (float_pieces_floats (Str.split "," (Str.strip_chars "{}" s))) as Hp.
  unfold mbind, result_bind.
  destruct (float_pieces _) as [vs|e]; simpl.
  - destruct Hp as [fs ->]. eauto.
  - subst e. simpl. unfold float_str.
    destruct (float_of_string s) as [f|]; simpl.
    + exists (VList [VFloat f]). split; [done|]. by exists [f].
    + exists (VList []). split; [done|]. by exists [].
Qed.



(** C2 on the code: the five strings of the claim and a list. The bare
    numeral 4.5 is valid JSON, so [json.loads] returns the float and the
    branch that would wrap it in a list is never reached. *)
Theorem parse_ratings_examples :
  parse_ratings (VStr "[1,2,3]") = Ok (VList [VInt 1; VInt 2; VInt 3]) ∧
  parse_ratings (VStr "{1,2,3}") = Ok (VList [VFloat f1; VFloat f2; VFloat f3]) ∧
  parse_ratings (VStr "4.5") = Ok (VFloat f4_5) ∧
  parse_ratings (VStr "") = Ok (VList []) ∧
  parse_ratings (VStr "no ratings yet") = Ok (VList []) ∧
  (∀ l, parse_ratings (VList l) = Ok (VList l)).
Proof. repeat split. Qed.

(** * [average_rating] *)

Lemma py_add_raises a b e : py_add a b = Raise e → e = TypeError ∨ e = OverflowError.
Proof.
  unfold py_add, float_int, mbind, result_bind.
  repeat case_match; intros; simplify_eq; auto.
Qed.

Lemma py_add_arithmetic a b c : py_add a b = Ok c → arithmetic c = true.
Proof.
  unfold py_add, float_int, mbind, result_bind.
  repeat case_match; intros; by simplify_eq.
Qed.

Lemma py_add_non_arithmetic a b : arithmetic b = false → py_add a b = Raise TypeError.
Proof. unfold arithmetic, py_add. by repeat case_match. Qed.


Lemma sum_from_cases acc l :
  (∀ e, acc = Raise e → e = TypeError ∨ e = OverflowError) →
  match sum_from acc l with
  | Ok t => (l = [] ∨ arithmetic t = true) ∧ (∃ a, acc = Ok a) ∧ Forall (fun x => arithmetic x = true) l
  | Raise e => e = TypeError ∨ e = OverflowError
  end.
Proof.
  revert acc. induction l as [|x l IH]; intros acc Hacc.
  - simpl. destruct acc; eauto.
  - simpl. specialize (IH (a ← acc; py_add a x)).
    unfold sum_from in IH |- *.
    destruct (fold_left _ l _) as [t|e] eqn:Hfold.
    + destruct IH as (Ht & [a Ha] & Hl).
      * destruct acc as [a0|e0]; simpl; [apply py_add_raises|eauto].
      * destruct acc as [a0|e0]; [|done]. simpl in Ha.
        repeat split; [|eauto|].
        -- right. destruct Ht as [-> | Ht]; [|done]. simpl in Hfold. rewrite Ha in Hfold.
           simplify_eq. by eapply py_add_arithmetic.
        -- constructor; [|done]. destruct (arithmetic x) eqn:Hx; [done|].
           by rewrite py_add_non_arithmetic in Ha.
    + apply IH. destruct acc as [a0|e0]; simpl; [apply py_add_raises|eauto].
Qed.

Lemma sum_from_ints z zs :
  sum_from (Ok (VInt z)) (map VInt zs) = Ok (VInt (z + foldr Z.add 0 zs)).
Proof.
  revert z. induction zs as [|x zs IH]; intros z.
  - simpl. by rewrite Z.add_0_r.
  - change (sum_from (Ok (VInt (z + x))) (map VInt zs)
            = Ok (VInt (z + foldr Z.add 0 (x :: zs)))).
    rewrite IH. simpl. do 2 f_equal. lia.
Qed.

Lemma py_sum_ints zs : py_sum (map VInt zs) = Ok (VInt (foldr Z.add 0 zs)).
Proof. apply (sum_from_ints 0). Qed.

Lemma py_truediv_raises a b e :
  py_truediv a b = Raise e → e = TypeError ∨ e = OverflowError ∨ e = ZeroDivisionError.
Proof.
  unfold py_truediv, int_true_divide, float_true_divide, float_int, mbind, result_bind.
  repeat case_match; intros; simplify_eq; auto.
Qed.

Lemma float_num_raises v e : float_num v = Raise e → e = TypeError ∨ e = OverflowError.
Proof. unfold float_num, float_int. repeat case_match; intros; simplify_eq; auto. Qed.

Lemma average_rating_unfold ratings :
  average_rating ratings =
    match average_body ratings with
    | Ok f => Ok f
    | Raise OverflowError => Raise OverflowError
    | Raise _ => Ok zero
    end.
Proof.
  unfold average_rating, average_body, try_except.
  destruct (negb (truthy ratings)); [done|].
  destruct (is_int_or_float ratings).
  - destruct (float_num ratings) as [f|e] eqn:Hf; [done|].
    by destruct (float_num_raises _ _ Hf) as [-> | ->].
  - destruct ratings; try done.
    destruct (py_sum l) as [t|e] eqn:Hs; simpl.
    + destruct (py_truediv _ _) as [f|e] eqn:Hd; [done|].
      by destruct (py_truediv_raises _ _ _ Hd) as [-> | [-> | ->]].
    + pose proof (sum_from_cases (Ok (VInt 0)) l) as H. unfold py_sum in Hs.
      unfold sum_from in H. rewrite Hs in H. by destruct H as [-> | ->].
Qed.

Lemma int_true_divide_raises a b e :
  b ≠ 0 → int_true_divide a b = Raise e → e = OverflowError.
Proof.
  unfold int_true_divide. intros Hb. rewrite (proj2 (Z.eqb_neq b 0) Hb).
  repeat case_match; intros; by simplify_eq.
Qed.

Lemma float_num_number_raises v e :
  is_int_or_float v = true → float_num v = Raise e → e = OverflowError.
Proof.
  unfold float_num, float_int. destruct v; try done; simpl; repeat case_match; intros; by simplify_eq.
Qed.

Lemma py_sum_ok_arithmetic l t :
  py_sum l = Ok t → Forall (fun x => arithmetic x = true) l.
Proof.
  intros Hs. pose proof (sum_from_cases (Ok (VInt 0)) l) as H.
  unfold sum_from in H. unfold py_sum in Hs. rewrite Hs in H. apply H. done.
Qed.

(** What [average_rating] returns whenever [OverflowError] does not
    escape. *)
Lemma average_rating_cases (ratings : value) :
  average_rating ratings ≠ Raise OverflowError →
  ∃ f, average_rating ratings = Ok f ∧
       (truthy ratings = false → f = zero) ∧
       (truthy ratings = true → is_int_or_float ratings = true → float_num ratings = Ok f) ∧
       (∀ zs, ratings = VList (map VInt zs) → zs ≠ [] →
          int_true_divide (foldr Z.add 0 zs) (Z.of_nat (length zs)) = Ok f) ∧
       (∀ l t q, ratings = VList l → l ≠ [] → py_sum l = Ok t →
          py_truediv t (VInt (Z.of_nat (length l))) = Ok q → f = q) ∧
       (∀ l, ratings = VList l → Exists (fun x => arithmetic x = false) l → f = zero) ∧
       (is_int_or_float ratings = false → (∀ l, ratings ≠ VList l) → f = zero).
Proof.
  rewrite average_rating_unfold. intros Hno.
  assert (Hlist : ∀ l, l ≠ [] → average_body (VList l)
            = (total ← py_sum l; py_truediv total (VInt (Z.of_nat (length l))))).
  { intros [|x l] Hl; done. }
  assert (Hints : ∀ zs, zs ≠ [] → average_body (VList (map VInt zs))
            = int_true_divide (foldr Z.add 0 zs) (Z.of_nat (length zs))).
  { intros zs Hzs. rewrite Hlist by (by destruct zs).
    rewrite py_sum_ints. simpl. by rewrite length_map. }
  destruct (average_body ratings) as [f|e] eqn:Hbody.
  - exists f. split; [done|]. repeat split.
    + intros Ht. unfold average_body in Hbody. rewrite Ht in Hbody. by simplify_eq/=.
    + intros Ht Hn. unfold average_body in Hbody. rewrite Ht, Hn in Hbody. done.
    + intros zs -> Hzs. by rewrite <- Hints.
    + intros l t q -> Hl Hs Hq. rewrite (Hlist l Hl), Hs in Hbody. simpl in Hbody. congruence.
    + intros l -> Hex. destruct l as [|x l]; [by apply Exists_nil in Hex|].
      rewrite Hlist in Hbody by done.
      destruct (py_sum (x :: l)) as [t|e] eqn:Hs; [|done].
      apply py_sum_ok_arithmetic in Hs. apply Exists_exists in Hex as (y & Hy & Hny).
      rewrite Forall_forall in Hs. specialize (Hs y Hy). congruence.
    + intros Hn Hl. unfold average_body in Hbody. rewrite Hn in Hbody.
      destruct (negb (truthy ratings)); [by simplify_eq|].
      destruct ratings; try by simplify_eq. by edestruct Hl.
  - assert (He : e ≠ OverflowError) by (intros ->; done).
    exists zero. split; [by destruct e|]. repeat split; try done.
    + intros Ht Hn. unfold average_body in Hbody. rewrite Ht, Hn in Hbody. simpl in Hbody.
      by apply float_num_number_raises in Hbody.
    + intros zs -> Hzs. rewrite Hints in Hbody by done.
      apply int_true_divide_raises in Hbody; [done|]. destruct zs; [done|]. simpl. lia.
    + intros l t q -> Hl Hs Hq. rewrite (Hlist l Hl), Hs in Hbody. simpl in Hbody. congruence.
Qed.










Example average_rating_examples :
  average_rating (VList []) = Ok zero ∧
  average_rating (VList [VInt 1; VInt 2; VInt 3]) = Ok f2 ∧
  average_rating (VList [VFloat f1; VFloat f2; VFloat f3]) = Ok f2 ∧
  average_rating (VList [VStr "good"; VInt 5]) = Ok zero ∧
  average_rating (VStr "corrupted") = Ok zero ∧
  average_rating VNone = Ok zero ∧
  average_rating (VDict [("stars", VInt 5)]) = Ok zero ∧
  average_rating (VList [VBool true; VBool false]) = Ok (S754_finite false 4503599627370496 (-53)) ∧
  average_rating (VInt 4) = Ok (S754_finite false 4503599627370496 (-50)) ∧
  average_rating (VList [VInt (10 ^ 400)]) = Raise OverflowError.
Proof. repeat split; vm_compute; reflexivity. Qed.

(** * The Reconciler: [save_poi] *)


Lemma params_are_items (data : poi_data) :
  fold_left (fun d kv => Dict.set (fst kv) (snd kv) d) (items data)
    [("external_id", FVal (str_or_none (external_id data)))] = items data.
Proof. destruct data as [eid nm lat lon cat rat [des|]]; reflexivity. Qed.

Lemma setattr_all_supplied (data : poi_data) (obj : gmap string field_value) :
  holds_fields data (setattr_all (items data) obj).
Proof.
  intros k v.
  destruct data as [eid nm lat lon cat rat [des|]]; unfold items, setattr_all; simpl;
    intros Hin; set_unfold; destruct_or!; simplify_eq; by simplify_map_eq.
Qed.


Lemma key_of_setattr_all (data : poi_data) (obj : gmap string field_value) :
  key_of (setattr_all (items data) obj) = external_id data.
Proof.
  unfold key_of.
  rewrite (setattr_all_supplied data obj "external_id" (FVal (str_or_none (external_id data)))).
  - by destruct (external_id data).
  - destruct data as [eid nm lat lon cat rat [des|]]; unfold items; simpl; set_solver.
Qed.


(** An exception inside [reconcile] leaves the state as it was. *)
Lemma reconcile_raise_unchanged E data upd st e st' :
  reconcile E data upd st = (Raise e, st') → st' = st.
Proof.
  unfold reconcile, get_or_create, objects_get, objects_create, save. unfold_M.
  repeat (case_match; simplify_eq/=); try done; intros; by simplify_eq.
Qed.

(** [save_poi] always returns, and what it returns is one of the three
    outcomes. *)
Lemma save_poi_returns E data upd st :
  ∃ c st', save_poi E data upd st = (Ok c, st') ∧
           (c = (1, 0, 0) ∨ c = (0, 1, 0) ∨ c = (0, 0, 1)).
Proof.
  unfold save_poi, try_.
  destruct (reconcile E data upd st) as [[c|e] st'] eqn:Hrec.
  - exists c, st'. split; [done|].
    revert Hrec. unfold reconcile, get_or_create, objects_get, objects_create, save. unfold_M.
    repeat (case_match; simplify_eq/=); intros; simplify_eq; auto.
  - unfold_M. eexists _, _. split; [reflexivity|]. auto.
Qed.

(** A failure inside [save_poi] is a skipped record, a warning, and an
    unchanged store. *)
Lemma save_poi_failure E data upd st e st1 :
  reconcile E data upd st = (Raise e, st1) →
  save_poi E data upd st =
    (Ok (0, 1, 0), wrote st WARNING (MsgErrorSaving (external_id data) e)).
Proof.
  intros Hrec. pose proof (reconcile_raise_unchanged _ _ _ _ _ _ Hrec) as ->.
  unfold save_poi, try_. by rewrite Hrec.
Qed.





Example save_poi_skips_on_refusal :
  save_poi (world [] [] [] create_fails) cafe false empty_state
  = (Ok (0, 1, 0), wrote empty_state WARNING (MsgErrorSaving (Some "42") DatabaseError)).
Proof. reflexivity. Qed.

(** * The loops: one record, one count *)

Lemma total_add c d : total (add_counts c d) = total c + total d.
Proof. destruct c as [[i s] u], d as [[i' s'] u']. simpl. lia. Qed.

Lemma one_outcome_total c : one_outcome c → total c = 1.
Proof. by intros [-> | [-> | ->]]. Qed.

(** The body of a loop when building the record raises. *)
Lemma record_extraction_failure E upd warn e st :
  record E upd warn (Raise e) st = (Ok (0, 1, 0), wrote st WARNING (warn e)).
Proof. reflexivity. Qed.

(** The body of a loop when the record is built: what [save_poi] says. *)
Lemma record_built E upd warn d st :
  record E upd warn (Ok d) st = save_poi E d upd st.
Proof.
  unfold record. unfold_M.
  destruct (save_poi_returns E d upd st) as (c & st' & -> & _). done.
Qed.

Lemma record_returns E upd warn data st :
  ∃ c st', record E upd warn data st = (Ok c, st') ∧ one_outcome c.
Proof.
  destruct data as [d|e].
  - rewrite record_built. apply save_poi_returns.
  - rewrite record_extraction_failure. eexists _, _. split; [done|]. right. by left.
Qed.

Section for_each.
Context {R : Type} (body : R → M counts).
Hypothesis body_returns : ∀ x st, ∃ c st', body x st = (Ok c, st') ∧ one_outcome c.

Lemma for_each_app xs ys c st :
  for_each body (xs ++ ys) c st =
    match for_each body xs c st with
    | (Ok c', st') => for_each body ys c' st'
    | (Raise e, st') => (Raise e, st')
    end.
Proof.
  revert c st. induction xs as [|x xs IH]; intros c st; [done|].
  simpl. unfold_M. destruct (body x st) as [[d|e] st1]; [apply IH|done].
Qed.

Lemma for_each_cons x xs c st :
  for_each body (x :: xs) c st =
    match body x st with
    | (Ok d, st') => for_each body xs (add_counts c d) st'
    | (Raise e, st') => (Raise e, st')
    end.
Proof. reflexivity. Qed.

Lemma for_each_counts xs c st :
  ∃ c' st', for_each body xs c st = (Ok c', st') ∧ total c' = total c + Z.of_nat (length xs).
Proof.
  revert c st. induction xs as [|x xs IH]; intros c st.
  - exists c, st. split; [done|]. simpl. lia.
  - simpl. unfold_M. destruct (body_returns x st) as (d & st1 & -> & Hd).
    destruct (IH (add_counts c d) st1) as (c' & st' & -> & Hc').
    exists c', st'. split; [done|].
    rewrite Hc', total_add, (one_outcome_total d Hd). lia.
Qed.

End for_each.

Lemma import_csv_from_content_counts E content upd src st :
  ∃ c st', import_csv_from_content E content upd src st = (Ok c, st') ∧
           total c = Z.of_nat (length (csv_content_records E content)).
Proof.
  unfold import_csv_from_content, csv_content_records, try_.
  destruct (is_nil (Str.splitlines content)); [by eexists _, _|].
  destruct (for_each_counts (csv_record E upd (Some src))
              (fun x st => record_returns _ _ _ _ st)
              (DictReader (csv_reader E (Str.splitlines content))) (0, 0, 0) st)
    as (c & st' & -> & Hc).
  by exists c, st'.
Qed.


Lemma import_json_from_content_counts E content upd src st :
  match json_content_records content with
  | Ok its =>
      ∃ c st', import_json_from_content E content upd src st = (Ok c, st') ∧
               total c = Z.of_nat (length its)
  | Raise e =>
      ∃ msg, import_json_from_content E content upd src st
             = (Raise (CommandError msg (Some e)), st)
  end.
Proof.
  unfold import_json_from_content, json_content_records. unfold_M.
  unfold mbind, result_bind.
  destruct (json_loads content) as [data|e]; [|destruct e; by eexists].
  destruct (json_items data) as [its|e]; [|destruct e; by eexists].
  destruct (for_each_counts (json_record E upd src)
              (fun x st => record_returns _ _ _ _ st) its (0, 0, 0) st)
    as (c & st' & -> & Hc).
  by exists c, st'.
Qed.

Lemma content_poi_elements_not_nil root : is_nil (content_poi_elements root) = false.
Proof. unfold content_poi_elements. cbn zeta. by repeat case_match. Qed.

Lemma import_xml_from_content_counts E content upd src st :
  ∃ c st', import_xml_from_content E content upd src st = (Ok c, st') ∧
           total c = match ET_fromstring E content with
                     | Some root => Z.of_nat (length (content_poi_elements root))
                     | None => 0
                     end.
Proof.
  unfold import_xml_from_content, fromstring. unfold_M.
  destruct (ET_fromstring E content) as [root|]; [|by eexists _, _].
  rewrite content_poi_elements_not_nil.
  destruct (for_each_counts (xml_record E upd (Some src))
              (fun x st => record_returns _ _ _ _ st) (content_poi_elements root) (0, 0, 0) st)
    as (c & st' & -> & Hc).
  by exists c, st'.
Qed.



(** * A failing record is one skip *)

Lemma parse_ratings_ok v : ∃ r, parse_ratings v = Ok r.
Proof. destruct (parse_ratings_cases v) as (r & Hr & _). eauto. Qed.

(** The CSV record is built exactly when the six columns are there and
    both coordinates are numerals. *)
Lemma csv_poi_data_raises row :
  (∃ e, csv_poi_data row = Raise e) ↔ csv_row_incomplete row.
Proof.
  unfold csv_poi_data, row_get, Decimal, csv_row_incomplete, numeral_missing, csv_columns.
  unfold mbind, result_bind.
  destruct (Dict.get "poi_id" row) as [eid|] eqn:H1;
    [|split; [intros _; left; exists "poi_id"; split; [set_solver|done] | by eexists]].
  destruct (Dict.get "poi_name" row) as [nm|] eqn:H2;
    [|split; [intros _; left; exists "poi_name"; split; [set_solver|done] | by eexists]].
  destruct (Dict.get "poi_latitude" row) as [[lat|]|] eqn:H3;
    [|split; [intros _; by right; left | by eexists]..].
  destruct (Decimal_of_string lat) as [dlat|] eqn:H3';
    [|split; [intros _; by right; left | by eexists]].
  destruct (Dict.get "poi_longitude" row) as [[lon|]|] eqn:H4;
    [|split; [intros _; by right; right | by eexists]..].
  destruct (Decimal_of_string lon) as [dlon|] eqn:H4';
    [|split; [intros _; by right; right | by eexists]].
  destruct (Dict.get "poi_category" row) as [cat|] eqn:H5;
    [|split; [intros _; left; exists "poi_category"; split; [set_solver|done] | by eexists]].
  destruct (Dict.get "poi_ratings" row) as [rat|] eqn:H6;
    [|split; [intros _; left; exists "poi_ratings"; split; [set_solver|done] | by eexists]].
  destruct (parse_ratings_ok (str_or_none rat)) as [r ->].
  split; [by intros [e He]|].
  intros [(k & Hk & Hnone) | [H | H]]; [|done..].
  set_unfold. destruct_or!; simplify_eq.
Qed.

Lemma csv_latitude_missing_raises row :
  latitude_missing row → ∃ e, csv_poi_data row = Raise e.
Proof. intros H. apply csv_poi_data_raises. right. by left. Qed.


(** A JSON item that is no object, or lacks a required key, is not built. *)
Lemma json_poi_data_raises E item :
  (∀ d, item ≠ VDict d) ∨
  (∃ k, k ∈ ["id"; "name"; "coordinates"; "category"; "ratings"] ∧
        subscript item k = Raise (KeyError k)) →
  ∃ e, json_poi_data E item = Raise e.
Proof.
  unfold json_poi_data, mbind, result_bind.
  intros [Hnot | (k & Hk & Hmiss)].
  - destruct item; try by eexists. by edestruct Hnot.
  - destruct item as [| | | | | |d]; try by eexists.
    assert (Hget : Dict.get k d = None).
    { simpl in Hmiss. by destruct (Dict.get k d). }
    clear Hmiss. unfold subscript at 1 2 3 5 7 8.
    set_unfold. destruct_or!; subst k; rewrite ?Hget;
      repeat (case_match; simplify_eq/=; try by eexists); by eexists.
Qed.

Lemma record_fails_skips E upd warn data st :
  record_fails E upd data st →
  ∃ w, record E upd warn data st = (Ok (0, 1, 0), wrote st WARNING w).
Proof.
  destruct data as [d|e]; simpl.
  - intros (e & st' & Hrec). rewrite record_built, (save_poi_failure _ _ _ _ _ _ Hrec). by eexists.
  - intros _. rewrite record_extraction_failure. by eexists.
Qed.

(** C7: a failure while processing one record (building it raises, or the
    store call fails) adds exactly 1 to [skipped], changes no row of the
    store, writes one warning, and the loop goes on with the records after
    it; and a CSV row with no usable [poi_latitude], or with any required
    field missing or a coordinate that is no numeral, is such a failure. *)
Theorem record_failure_is_one_skip (R : Type) E upd warn (extract : R → result poi_data)
    pre x post st c1 st1 :
  for_each (fun r => record E upd warn (extract r)) pre (0, 0, 0) st = (Ok c1, st1) →
  record_fails E upd (extract x) st1 →
  ∃ w, record E upd warn (extract x) st1 = (Ok (0, 1, 0), wrote st1 WARNING w) ∧
       for_each (fun r => record E upd warn (extract r)) (pre ++ x :: post) (0, 0, 0) st
       = for_each (fun r => record E upd warn (extract r)) post
           (add_counts c1 (0, 1, 0)) (wrote st1 WARNING w) ∧
       (∀ row : csv_row, latitude_missing row ∨ csv_row_incomplete row →
          ∀ st2, record_fails E upd (csv_poi_data row) st2).
Proof.
  intros Hpre Hfail.
  destruct (record_fails_skips E upd warn (extract x) st1 Hfail) as [w Hw].
  exists w. repeat split.
  - done.
  - by rewrite for_each_app, Hpre, for_each_cons, Hw.
  - intros row Hrow st2.
    assert (Hinc : csv_row_incomplete row) by (destruct Hrow; [right; by left|done]).
    apply csv_poi_data_raises in Hinc as [e ->]. done.
Qed.

Lemma sample_rows :
  csv_content_records sample_world sample_csv = [cafe_row; bar_row; pub_row].
Proof. reflexivity. Qed.

Lemma record_failure_is_one_skip_witness :
  ∃ w, record sample_world false (csv_warning None) (csv_poi_data bar_row) after_cafe
       = (Ok (0, 1, 0), wrote after_cafe WARNING w) ∧
       for_each (fun r => record sample_world false (csv_warning None) (csv_poi_data r))
         ([cafe_row] ++ bar_row :: [pub_row]) (0, 0, 0) empty_state
       = for_each (fun r => record sample_world false (csv_warning None) (csv_poi_data r))
           [pub_row] (add_counts (1, 0, 0) (0, 1, 0)) (wrote after_cafe WARNING w) ∧
       (∀ row : csv_row, latitude_missing row ∨ csv_row_incomplete row →
          ∀ st2, record_fails sample_world false (csv_poi_data row) st2).
Proof.
  apply (record_failure_is_one_skip csv_row sample_world false (csv_warning None) csv_poi_data
           [cafe_row] bar_row [pub_row] empty_state (1, 0, 0) after_cafe).
  - vm_compute. reflexivity.
  - vm_compute. exact I.
Defined.

Example sample_import :
  (import_file sample_world "pois.csv" false empty_state).1 = Ok (2, 1, 0).
Proof. reflexivity. Qed.

Example sample_import_again :
  let st := (import_file sample_world "pois.csv" false empty_state).2 in
  (import_file sample_world "pois.csv" false st).1 = Ok (0, 3, 0) ∧
  store (import_file sample_world "pois.csv" false st).2 = store st.
Proof. split; vm_compute; reflexivity. Qed.

Example sample_import_update :
  let st := (import_file sample_world "pois.csv" false empty_state).2 in
  (import_file sample_world "pois.csv" true st).1 = Ok (0, 1, 2).
Proof. vm_compute. reflexivity. Qed.

(** * Whole-document XML failures *)




(** * Dispatch of remote sources *)

Lemma import_from_url_dispatch E url upd st response :
  requests_get E url = Some response →
  let content_type :=
    Str.lower (match content_type_header response with Some h => h | None => "" end) in
  let st0 := wrote st PLAIN (MsgDownloading url) in
  import_from_url E url upd st =
    match remote_format content_type url with
    | Some CSV => url_result url (import_csv_from_content E (text response) upd url st0)
    | Some JSON => url_result url (import_json_from_content E (text response) upd url st0)
    | Some XML => url_result url (import_xml_from_content E (text response) upd url st0)
    | None =>
        (Raise (url_error url
                  (CommandError ("Could not determine file type for URL: " +:+ url) None)),
         st0)
    end.
Proof.
  intros Hget. cbn zeta. unfold import_from_url, fetch, url_result. unfold_M.
  rewrite Hget. cbn [stdout store].
  destruct (remote_format _ url) as [[]|]; [| | |done].
  - fold (wrote st PLAIN (MsgDownloading url)).
    by destruct (import_csv_from_content _ _ _ _ _) as [[c|e] st'].
  - fold (wrote st PLAIN (MsgDownloading url)).
    by destruct (import_json_from_content _ _ _ _ _) as [[c|e] st'].
  - fold (wrote st PLAIN (MsgDownloading url)).
    by destruct (import_xml_from_content _ _ _ _ _) as [[c|e] st'].
Qed.

Lemma remote_format_names content_type url :
  remote_format content_type url =
    if names "csv" ".csv" content_type url then Some CSV
    else if names "json" ".json" content_type url then Some JSON
    else if names "xml" ".xml" content_type url then Some XML
    else None.
Proof. reflexivity. Qed.

(** C5, as amended: the formats are tried in the order csv, json, xml, and
    each is chosen by its name in the content type or by the end of the
    lower-cased URL. So a URL ending in .csv goes to the CSV parser whatever
    the content type; a content type with json in it goes to the JSON parser
    exactly when csv is named neither by the content type nor by the URL; and
    the end of the URL alone decides when the content type names none of the
    three. *)
Theorem remote_dispatch_order E url upd st response :
  requests_get E url = Some response →
  let content_type :=
    Str.lower (match content_type_header response with Some h => h | None => "" end) in
  let st0 := wrote st PLAIN (MsgDownloading url) in
  let to_csv := import_from_url E url upd st
                = url_result url (import_csv_from_content E (text response) upd url st0) in
  let to_json := import_from_url E url upd st
                 = url_result url (import_json_from_content E (text response) upd url st0) in
  let to_xml := import_from_url E url upd st
                = url_result url (import_xml_from_content E (text response) upd url st0) in
  (names "csv" ".csv" content_type url = true → to_csv) ∧
  (names "csv" ".csv" content_type url = false →
   names "json" ".json" content_type url = true → to_json) ∧
  (names "csv" ".csv" content_type url = false →
   names "json" ".json" content_type url = false →
   names "xml" ".xml" content_type url = true → to_xml) ∧
  (Str.contains "json" content_type = true →
   if names "csv" ".csv" content_type url then to_csv else to_json) ∧
  (Str.contains "csv" content_type = false → Str.contains "json" content_type = false →
   Str.contains "xml" content_type = false →
   if Str.endswith ".csv" (Str.lower url) then to_csv
   else if Str.endswith ".json" (Str.lower url) then to_json
   else if Str.endswith ".xml" (Str.lower url) then to_xml
   else ∃ e, import_from_url E url upd st = (Raise e, st0)).
Proof.
  intros Hget. cbn zeta.
  rewrite (import_from_url_dispatch E url upd st response Hget). cbn zeta.
  rewrite remote_format_names. unfold names.
  destruct (Str.contains "csv" _), (Str.endswith ".csv" (Str.lower url)),
    (Str.contains "json" _), (Str.endswith ".json" (Str.lower url)),
    (Str.contains "xml" _), (Str.endswith ".xml" (Str.lower url)); simpl;
    repeat split; intros; try done; by eexists.
Qed.

(** A JSON content type under a URL that ends in .csv: the CSV parser
    runs and finds a header line and no row, where the JSON parser would
    have imported the record. *)
Lemma json_content_type_loses_to_csv_url :
  Str.contains "json" "application/json" = true ∧
  import_from_url web export_url false empty_state
    = import_csv_from_content web export_json false export_url
        (wrote empty_state PLAIN (MsgDownloading export_url)) ∧
  (import_from_url web export_url false empty_state).1 = Ok (0, 0, 0) ∧
  (import_json_from_content web export_json false export_url
     (wrote empty_state PLAIN (MsgDownloading export_url))).1 = Ok (1, 0, 0).
Proof. repeat split. Qed.

Lemma remote_dispatch_order_witness :
  let content_type := "application/json" in
  let st0 := wrote empty_state PLAIN (MsgDownloading export_url) in
  let to_csv := import_from_url web export_url false empty_state
                = url_result export_url (import_csv_from_content web export_json false export_url st0) in
  let to_json := import_from_url web export_url false empty_state
                 = url_result export_url (import_json_from_content web export_json false export_url st0) in
  let to_xml := import_from_url web export_url false empty_state
                = url_result export_url (import_xml_from_content web export_json false export_url st0) in
  (names "csv" ".csv" content_type export_url = true → to_csv) ∧
  (names "csv" ".csv" content_type export_url = false →
   names "json" ".json" content_type export_url = true → to_json) ∧
  (names "csv" ".csv" content_type export_url = false →
   names "json" ".json" content_type export_url = false →
   names "xml" ".xml" content_type export_url = true → to_xml) ∧
  (Str.contains "json" content_type = true →
   if names "csv" ".csv" content_type export_url then to_csv else to_json) ∧
  (Str.contains "csv" content_type = false → Str.contains "json" content_type = false →
   Str.contains "xml" content_type = false →
   if Str.endswith ".csv" (Str.lower export_url) then to_csv
   else if Str.endswith ".json" (Str.lower export_url) then to_json
   else if Str.endswith ".xml" (Str.lower export_url) then to_xml
   else ∃ e, import_from_url web export_url false empty_state = (Raise e, st0)).
Proof.
  apply (remote_dispatch_order web export_url false empty_state export_page).
  reflexivity.
Defined.

(** * Where the XML parsers look for records *)

Lemma content_poi_elements_order root :
  content_poi_elements root =
    if negb (is_nil (findall "poi" root)) then findall "poi" root
    else if negb (is_nil (findall "point" root)) then findall "point" root
    else if negb (is_nil (findall "item" root)) then findall "item" root
    else if negb (is_nil (findall "DATA_RECORD" root)) then findall "DATA_RECORD" root
    else [root].
Proof.
  unfold content_poi_elements, list_or.
  destruct (findall "poi" root), (findall "point" root), (findall "item" root),
    (findall "DATA_RECORD" root); reflexivity.
Qed.

Lemma file_poi_elements_order root :
  file_poi_elements root =
    if negb (is_nil (findall "poi" root)) then findall "poi" root
    else if negb (is_nil (findall "point" root)) then findall "point" root
    else if negb (is_nil (findall "item" root)) then findall "item" root
    else [root].
Proof.
  unfold file_poi_elements, list_or.
  destruct (findall "poi" root), (findall "point" root), (findall "item" root); reflexivity.
Qed.

(** C6 on the code: the parser of remote content searches the four tags
    in order and falls back to the root; the parser of local files never
    searches [DATA_RECORD]. The same document of two [DATA_RECORD] elements
    gives two imported records as remote content and one skipped record (the
    root) as a local file. *)
Theorem data_record_only_in_content :
  (∀ root, content_poi_elements root =
     if negb (is_nil (findall "poi" root)) then findall "poi" root
     else if negb (is_nil (findall "point" root)) then findall "point" root
     else if negb (is_nil (findall "item" root)) then findall "item" root
     else if negb (is_nil (findall "DATA_RECORD" root)) then findall "DATA_RECORD" root
     else [root]) ∧
  content_poi_elements records_root = [data_record "7" "Cafe"; data_record "8" "Bar"] ∧
  file_poi_elements records_root = [records_root] ∧
  (import_file web records_url false empty_state).1 = Ok (2, 0, 0) ∧
  (import_file web "records.xml" false empty_state).1 = Ok (0, 1, 0).
Proof. split; [apply content_poi_elements_order|]. repeat split. Qed.

(** * The orchestrator: [handle] *)

Lemma add_counts_assoc a b c : add_counts (add_counts a b) c = add_counts a (add_counts b c).
Proof.
  destruct a as [[? ?] ?], b as [[? ?] ?], c as [[? ?] ?]. simpl.
  f_equal; [f_equal|]; lia.
Qed.

Lemma add_counts_zero a : add_counts a (0, 0, 0) = a.
Proof. destruct a as [[? ?] ?]. simpl. f_equal; [f_equal|]; lia. Qed.

Lemma handle_source_processed E upd totals file_path st imported skipped updated st1 :
  import_file E file_path upd st = (Ok (imported, skipped, updated), st1) →
  handle_source E upd totals file_path st
    = (Ok (add_counts totals (imported, skipped, updated)),
       wrote st1 SUCCESS (MsgProcessed file_path imported skipped updated)).
Proof. intros H. unfold handle_source. unfold_M. by rewrite H. Qed.

Lemma handle_source_failed E upd totals file_path st e st1 :
  import_file E file_path upd st = (Raise e, st1) →
  handle_source E upd totals file_path st
    = (Ok totals, wrote st1 ERROR (MsgErrorProcessing file_path e)).
Proof. intros H. unfold handle_source. unfold_M. by rewrite H. Qed.

Lemma handle_loop_runs E upd file_paths totals st :
  ∃ outs st', sources_run E upd file_paths st outs st' ∧
              handle_loop E upd file_paths totals st
              = (Ok (add_counts totals (sum_processed outs)), st').
Proof.
  revert totals st. induction file_paths as [|file_path rest IH]; intros totals st.
  - exists [], st. split; [constructor|]. simpl. by rewrite add_counts_zero.
  - simpl. unfold mbind, M_bind.
    destruct (import_file E file_path upd st) as [[[[i s] u]|e] st1] eqn:Himp.
    + rewrite (handle_source_processed _ _ _ _ _ _ _ _ _ Himp).
      destruct (IH (add_counts totals (i, s, u))
                  (wrote st1 SUCCESS (MsgProcessed file_path i s u))) as (outs & st' & Hrun & ->).
      exists (Ok (i, s, u) :: outs), st'. split; [by econstructor|].
      by rewrite add_counts_assoc.
    + rewrite (handle_source_failed _ _ _ _ _ _ _ Himp).
      destruct (IH totals (wrote st1 ERROR (MsgErrorProcessing file_path e)))
        as (outs & st' & Hrun & ->).
      exists (Raise e :: outs), st'. split; [by econstructor|done].
Qed.

(** C8, as amended: [handle] never aborts. Every source is run in turn; a
    source whose import raises contributes nothing and gets an error line, a
    source that is processed gets its line and adds its counters; and the
    last line written is the totals line, with the sum of the counters of the
    processed sources. *)
Theorem handle_never_aborts E file_paths upd st :
  ∃ outs st', sources_run E upd file_paths st outs st' ∧
              handle E file_paths upd st
              = (Ok tt, wrote st' SUCCESS
                          (MsgTotal (sum_processed outs).1.1 (sum_processed outs).1.2
                                    (sum_processed outs).2)).
Proof.
  destruct (handle_loop_runs E upd file_paths (0, 0, 0) st) as (outs & st' & Hrun & Hloop).
  exists outs, st'. split; [done|].
  unfold handle. unfold mbind, M_bind. rewrite Hloop.
  destruct (sum_processed outs) as [[i s] u]. simpl. reflexivity.
Qed.

Lemma sources_run_length E upd file_paths st outs st' :
  sources_run E upd file_paths st outs st' → length outs = length file_paths.
Proof. induction 1; simpl; congruence. Qed.

(** A remote XML document that does not parse is reported as processed,
    with a notice before it: no error line is written. *)
Lemma unparsable_feed_is_reported_as_processed :
  ET_fromstring web (text feed_page) = None ∧
  ∃ st', handle web [feed_url] false empty_state = (Ok tt, st') ∧
         stdout st' = [(PLAIN, MsgDownloading feed_url);
                       (PLAIN, MsgXMLParsingFailed ParseError);
                       (SUCCESS, MsgProcessed feed_url 0 0 0);
                       (SUCCESS, MsgTotal 0 0 0)] ∧
         Forall (fun line => line.1 ≠ ERROR) (stdout st').
Proof.
  split; [reflexivity|]. eexists. split; [reflexivity|]. split; [reflexivity|].
  repeat constructor; discriminate.
Qed.

Example three_sources :
  stdout (handle web ["pois.csv"; dead_url; records_url] false empty_state).2 =
    [(WARNING, MsgRecordError "CSV" None InvalidOperation);
     (SUCCESS, MsgProcessed "pois.csv" 2 1 0);
     (PLAIN, MsgDownloading dead_url);
     (ERROR, MsgErrorProcessing dead_url
               (CommandError ("Failed to download from URL " +:+ dead_url)
                  (Some RequestException)));
     (PLAIN, MsgDownloading records_url);
     (SUCCESS, MsgProcessed records_url 2 0 0);
     (SUCCESS, MsgTotal 4 1 0)].
Proof. vm_compute. reflexivity. Qed.

Example every_source_fails :
  stdout (handle web ["notes.txt"; dead_url] true empty_state).2 =
    [(ERROR, MsgErrorProcessing "notes.txt" (CommandError "Unsupported file format: .txt" None));
     (PLAIN, MsgDownloading dead_url);
     (ERROR, MsgErrorProcessing dead_url
               (CommandError ("Failed to download from URL " +:+ dead_url)
                  (Some RequestException)));
     (SUCCESS, MsgTotal 0 0 0)].
Proof. vm_compute. reflexivity. Qed.

(** * Rows are never deleted *)

Lemma keeps_rows_ret {A} (a : A) : keeps_rows (mret a).
Proof. intros st. done. Qed.

Lemma keeps_rows_raise {A} e : keeps_rows (raise (A := A) e).
Proof. intros st. done. Qed.

Lemma keeps_rows_lift {A} (r : result A) : keeps_rows (lift r).
Proof. intros st. done. Qed.

Lemma keeps_rows_write sty msg : keeps_rows (write sty msg).
Proof. intros st. done. Qed.

Lemma keeps_rows_bind {A B} (m : M A) (k : A → M B) :
  keeps_rows m → (∀ a, keeps_rows (k a)) → keeps_rows (m ≫= k).
Proof.
  intros Hm Hk st. specialize (Hm st). unfold mbind, M_bind.
  destruct (m st) as [[a|e] st1]; simpl in *; [|done].
  specialize (Hk a st1). set_solver.
Qed.

Lemma keeps_rows_try {A} (m : M A) (h : exn → option (M A)) :
  keeps_rows m → (∀ e k, h e = Some k → keeps_rows k) → keeps_rows (try_ m h).
Proof.
  intros Hm Hh st. specialize (Hm st). unfold try_.
  destruct (m st) as [[a|e] st1]; simpl in *; [done|].
  destruct (h e) as [k|] eqn:He; [|done].
  specialize (Hh e k He st1). set_solver.
Qed.

Lemma keeps_rows_reconcile E data upd : keeps_rows (reconcile E data upd).
Proof.
  intros st. unfold reconcile, get_or_create, objects_get, objects_create, save. unfold_M.
  rewrite params_are_items.
  destruct (db_fault E (store st) (OpGet (external_id data))); [done|].
  destruct (external_id data) as [eid|] eqn:Heid.
  - destruct (store st !! eid) as [old|] eqn:Hold.
    + destruct upd; [|done]. cbn [fst snd].
      destruct (db_fault E _ _); [done|].
      rewrite key_of_setattr_all, Heid.
      rewrite bool_decide_eq_false_2 by (intros Hne; by apply Hne). cbn [andb].
      simpl. rewrite insert_delete_eq, dom_insert_L. set_solver.
    + destruct (db_fault E _ _); [done|].
      rewrite key_of_setattr_all, Heid, Hold. simpl. rewrite dom_insert_L. set_solver.
  - destruct (db_fault E _ _); [done|]. by rewrite key_of_setattr_all, Heid.
Qed.

Lemma keeps_rows_save_poi E data upd : keeps_rows (save_poi E data upd).
Proof.
  apply keeps_rows_try; [apply keeps_rows_reconcile|].
  intros e k [= <-]. apply keeps_rows_bind; [apply keeps_rows_write|]. intros _. apply keeps_rows_ret.
Qed.

Lemma keeps_rows_record E upd warn data : keeps_rows (record E upd warn data).
Proof.
  apply keeps_rows_try.
  - apply keeps_rows_bind; [apply keeps_rows_lift|]. intros d. apply keeps_rows_save_poi.
  - intros e k [= <-]. apply keeps_rows_bind; [apply keeps_rows_write|]. intros _.
    apply keeps_rows_ret.
Qed.

Lemma keeps_rows_for_each {R} (body : R → M counts) xs c :
  (∀ x, keeps_rows (body x)) → keeps_rows (for_each body xs c).
Proof.
  intros Hbody. revert c. induction xs as [|x xs IH]; intros c; [apply keeps_rows_ret|].
  simpl. apply keeps_rows_bind; [apply Hbody|]. intros d. apply IH.
Qed.

Ltac keeps :=
  repeat first
    [ apply keeps_rows_ret | apply keeps_rows_raise | apply keeps_rows_lift
    | apply keeps_rows_write | apply keeps_rows_record
    | apply keeps_rows_for_each; intros ?
    | apply keeps_rows_bind; [|intros ?]
    | apply keeps_rows_try;
        [|let e := fresh in let H := fresh in intros e ? H; try destruct e; simplify_eq/=]
    | progress (repeat case_match) ].

Lemma keeps_rows_import_file E file_path upd : keeps_rows (import_file E file_path upd).
Proof.
  unfold import_file, import_from_url, import_csv, import_json, import_xml,
    import_csv_from_content, import_json_from_content, import_xml_from_content,
    fetch, parse_file, open, fromstring, csv_record, json_record, xml_record.
  keeps.
Qed.

Lemma keeps_rows_handle_loop E upd file_paths totals :
  keeps_rows (handle_loop E upd file_paths totals).
Proof.
  revert totals. induction file_paths as [|file_path rest IH]; intros totals; simpl.
  - keeps.
  - apply keeps_rows_bind; [|intros t; apply IH].
    unfold handle_source. apply keeps_rows_try; [|intros ? ? [= <-]; keeps].
    apply keeps_rows_bind; [apply keeps_rows_import_file|]. intros [[i s] u]. keeps.
Qed.

(** The importer never deletes a record: every [external_id] stored before
    a run of the command is stored after it. *)
Theorem handle_keeps_rows E file_paths upd st k :
  is_Some (store st !! k) → is_Some (store (handle E file_paths upd st).2 !! k).
Proof.
  rewrite <- !elem_of_dom. apply (keeps_rows_bind _ _ (keeps_rows_handle_loop E upd file_paths _)).
  intros [[i s] u]. keeps.
Qed.

Lemma handle_keeps_rows_witness :
  is_Some (store after_cafe !! "1") ∧
  is_Some (store (handle sample_world ["pois.csv"; "notes.txt"] true after_cafe).2 !! "1").
Proof.
  assert (H : is_Some (store after_cafe !! "1")) by (eexists; vm_compute; reflexivity).
  split; [exact H|].
  exact (handle_keeps_rows sample_world ["pois.csv"; "notes.txt"] true after_cafe "1" H).
Defined.


(** * Importing the same source again *)








(** * The fuel of the JSON decoder *)

Local Open Scope nat_scope.

Lemma lstrip_by_length f s : String.length (Str.lstrip_by f s) <= String.length s.
Proof. induction s as [|c s IH]; simpl; [done|]. destruct (f c); simpl; lia. Qed.

Lemma skip_ws_length s : String.length (Json.skip_ws s) <= String.length s.
Proof. apply lstrip_by_length. Qed.

Lemma strip_prefix_length p s t :
  Json.strip_prefix p s = Some t → String.length s = String.length p + String.length t.
Proof.
  revert s. induction p as [|a p IH]; intros s; simpl.
  - by intros [= ->].
  - destruct s as [|b s]; [done|]. destruct (Ascii.eqb a b); [|done].
    intros H. apply IH in H. simpl. lia.
Qed.

Lemma append_length (a b : string) :
  String.length (a +:+ b) = String.length a + String.length b.
Proof. induction a as [|c a IH]; simpl; [done|]. by rewrite IH. Qed.

Lemma span_digits_length s d t :
  Str.span_digits s = (d, t) → String.length s = String.length d + String.length t.
Proof.
  revert d t. induction s as [|c s IH]; intros d t; simpl.
  - by intros [= <- <-].
  - destruct (Str.is_digit c).
    + destruct (Str.span_digits s) as [d' t'] eqn:Hs. intros [= <- <-].
      specialize (IH d' t' eq_refl). simpl. lia.
    + by intros [= <- <-].
Qed.

Lemma scan_units_length n : ∀ s us t,
  String.length s <= n → Json.scan_units s = Some (us, t) → String.length t < String.length s.
Proof.
  induction n as [|n IH]; intros s us t Hn.
  - destruct s; [done|simpl in Hn; lia].
  - destruct s as [|c r]; [done|]. simpl in Hn. simpl.
    destruct (Ascii.eqb c "034"); [intros [= <- <-]; lia|].
    destruct (Ascii.eqb c "\").
    + destruct r as [|e r']; [done|].
      assert (Hsimple : match Json.simple_escape e, Json.scan_units r' with
                        | Some ch, Some (us0, t0) => Some (Json.UChar ch :: us0, t0)
                        | _, _ => None
                        end = Some (us, t) → String.length t < S (S (String.length r'))).
      { destruct (Json.simple_escape e); [|done].
        destruct (Json.scan_units r') as [[us0 t0]|] eqn:Hr; [|done].
        intros [= <- <-]. apply IH in Hr; simpl in *; lia. }
      destruct e as [[] [] [] [] [] [] [] []]; try exact Hsimple.
      destruct r' as [|h1 [|h2 [|h3 [|h4 r'']]]]; try exact Hsimple; try done.
      destruct (Json.hex4 h1 h2 h3 h4); [|done].
      destruct (Json.scan_units r'') as [[us0 t0]|] eqn:Hr; [|done].
      intros [= <- <-]. apply IH in Hr; simpl in *; lia.
    + destruct (nat_of_ascii c <? 32); [done|].
      destruct (Json.scan_units r) as [[us0 t0]|] eqn:Hr; [|done].
      intros [= <- <-]. apply IH in Hr; simpl in *; lia.
Qed.

Lemma scanstring_length s str t :
  Json.scanstring s = Some (str, t) → String.length t < String.length s.
Proof.
  unfold Json.scanstring. destruct (Json.scan_units s) as [[us t']|] eqn:Hs; [|done].
  intros [= <- <-]. by eapply scan_units_length.
Qed.

Lemma split_sign_length s : String.length (Numeral.split_sign s).2 <= String.length s.
Proof. destruct s as [|[[] [] [] [] [] [] [] []] r]; simpl; lia. Qed.

Lemma match_number_length s v t :
  Json.match_number s = Some (v, t) → String.length t < String.length s.
Proof.
  unfold Json.match_number.
  lazymatch goal with |- (let '(_, _) := ?X in _) = _ → _ => set (sg := X) end.
  assert (Hsg : String.length sg.2 <= String.length s).
  { subst sg. destruct s as [|[[] [] [] [] [] [] [] []] r]; simpl; lia. }
  destruct sg as [neg r0]. simpl in Hsg.
  destruct (Str.span_digits r0) as [ip r1] eqn:Hip. apply span_digits_length in Hip.
  destruct ip as [|d ip']; [done|]. simpl in Hip.
  lazymatch goal with |- (let '(_, _) := ?X in _) = _ → _ => set (ai := X) end.
  assert (Hai : String.length ai.2 < String.length r0).
  { subst ai. destruct (Ascii.eqb d "0"); simpl; rewrite ?append_length; lia. }
  destruct ai as [int_part after_int]. simpl in Hai.
  lazymatch goal with |- (let '(_, _) := ?X in _) = _ → _ => set (fr := X) end.
  assert (Hfr : String.length fr.2 <= String.length after_int).
  { subst fr. destruct after_int as [|[[] [] [] [] [] [] [] []] r]; simpl; try lia.
    destruct (Str.span_digits r) as [fd t'] eqn:Hfd. apply span_digits_length in Hfd.
    destruct (Str.is_empty fd); simpl; lia. }
  destruct fr as [frac after_frac]. simpl in Hfr.
  lazymatch goal with |- (let '(_, _) := ?X in _) = _ → _ => set (ex := X) end.
  assert (Hex : String.length ex.2 <= String.length after_frac).
  { subst ex. destruct after_frac as [|e r]; simpl; [lia|].
    destruct (Ascii.eqb e "e" || Ascii.eqb e "E"); simpl; [|lia].
    pose proof (split_sign_length r) as Hr.
    destruct (Numeral.split_sign r) as [eneg r']. simpl in Hr.
    destruct (Str.span_digits r') as [ed t'] eqn:Hed. apply span_digits_length in Hed.
    destruct (Str.is_empty ed); simpl; lia. }
  destruct ex as [expo rest]. simpl in Hex.
  destruct frac, expo; intros [= <- <-]; lia.
Qed.

Lemma literal_length s v t :
  match Json.strip_prefix "null" s, Json.strip_prefix "true" s, Json.strip_prefix "false" s with
  | Some t, _, _ => Some (VNone, t)
  | _, Some t, _ => Some (VBool true, t)
  | _, _, Some t => Some (VBool false, t)
  | _, _, _ =>
      match Json.strip_prefix "NaN" s, Json.strip_prefix "Infinity" s,
            Json.strip_prefix "-Infinity" s with
      | Some t, _, _ => Some (VFloat S754_nan, t)
      | _, Some t, _ => Some (VFloat (S754_infinity false), t)
      | _, _, Some t => Some (VFloat (S754_infinity true), t)
      | _, _, _ => Json.match_number s
      end
  end = Some (v, t) → String.length t < String.length s.
Proof.
  destruct (Json.strip_prefix "null" s) eqn:H1;
    [apply strip_prefix_length in H1; intros [= <- <-]; simpl in H1; lia|].
  destruct (Json.strip_prefix "true" s) eqn:H2;
    [apply strip_prefix_length in H2; intros [= <- <-]; simpl in H2; lia|].
  destruct (Json.strip_prefix "false" s) eqn:H3;
    [apply strip_prefix_length in H3; intros [= <- <-]; simpl in H3; lia|].
  destruct (Json.strip_prefix "NaN" s) eqn:H4;
    [apply strip_prefix_length in H4; intros [= <- <-]; simpl in H4; lia|].
  destruct (Json.strip_prefix "Infinity" s) eqn:H5;
    [apply strip_prefix_length in H5; intros [= <- <-]; simpl in H5; lia|].
  destruct (Json.strip_prefix "-Infinity" s) eqn:H6;
    [apply strip_prefix_length in H6; intros [= <- <-]; simpl in H6; lia|].
  apply match_number_length.
Qed.

Lemma scan_length f :
  (∀ s v t, Json.scan_once f s = Some (v, t) → String.length t < String.length s) ∧
  (∀ s acc v t, Json.parse_items f s acc = Some (v, t) → String.length t < String.length s) ∧
  (∀ s acc v t, Json.parse_pairs f s acc = Some (v, t) → String.length t < String.length s).
Proof.
  induction f as [|f (IHo & IHi & IHp)]; [by repeat split|]. repeat split.
  - intros s v t. destruct s as [|c r]; [apply literal_length|].
    destruct c as [[] [] [] [] [] [] [] []]; try apply literal_length;
      cbn [Json.scan_once].
    + pose proof (skip_ws_length r) as Hr.
      destruct (Json.skip_ws r) as [|[[] [] [] [] [] [] [] []] t0];
        (intros [= <- <-] || (intros H; apply IHp in H)); simpl in *; lia.
    + pose proof (skip_ws_length r) as Hr.
      destruct (Json.skip_ws r) as [|[[] [] [] [] [] [] [] []] t0];
        (intros [= <- <-] || (intros H; apply IHi in H)); simpl in *; lia.
    + destruct (Json.scanstring r) as [[str t0]|] eqn:Hs; [|done].
      apply scanstring_length in Hs. intros [= <- <-]. simpl. lia.
  - intros s acc v t. cbn [Json.parse_items].
    destruct (Json.scan_once f s) as [[v0 r]|] eqn:Ho; [|done]. apply IHo in Ho.
    pose proof (skip_ws_length r) as Hr.
    destruct (Json.skip_ws r) as [|[[] [] [] [] [] [] [] []] t0]; try done.
    + intros [= <- <-]. simpl in *. lia.
    + intros H. apply IHi in H. pose proof (skip_ws_length t0). simpl in *. lia.
  - intros s acc v t. cbn [Json.parse_pairs].
    destruct s as [|[[] [] [] [] [] [] [] []] r]; try done.
    destruct (Json.scanstring r) as [[key r1]|] eqn:Hs; [|done].
    apply scanstring_length in Hs.
    pose proof (skip_ws_length r1) as Hr1.
    destruct (Json.skip_ws r1) as [|[[] [] [] [] [] [] [] []] r2]; try done.
    pose proof (skip_ws_length r2) as Hr2.
    destruct (Json.scan_once f (Json.skip_ws r2)) as [[v0 r3]|] eqn:Ho; [|done].
    apply IHo in Ho.
    pose proof (skip_ws_length r3) as Hr3.
    destruct (Json.skip_ws r3) as [|[[] [] [] [] [] [] [] []] t0]; try done.
    + intros [= <- <-]. simpl in *. lia.
    + intros H. apply IHp in H. pose proof (skip_ws_length t0). simpl in *. lia.
Qed.

Lemma scan_fuel f :
  (∀ s, 2 * String.length s + 1 <= f → Json.scan_once f s = Json.scan_once (S f) s) ∧
  (∀ s acc, 2 * String.length s + 2 <= f →
     Json.parse_items f s acc = Json.parse_items (S f) s acc) ∧
  (∀ s acc, 2 * String.length s + 2 <= f →
     Json.parse_pairs f s acc = Json.parse_pairs (S f) s acc).
Proof.
  induction f as [|f (IHo & IHi & IHp)]; [repeat split; intros; lia|]. repeat split.
  - intros s Hf. destruct s as [|c r]; [done|]. simpl in Hf.
    destruct c as [[] [] [] [] [] [] [] []]; try done; cbn [Json.scan_once].
    + pose proof (skip_ws_length r) as Hr.
      destruct (Json.skip_ws r) as [|[[] [] [] [] [] [] [] []] t0];
        try done; apply IHp; simpl in *; lia.
    + pose proof (skip_ws_length r) as Hr.
      destruct (Json.skip_ws r) as [|[[] [] [] [] [] [] [] []] t0];
        try done; apply IHi; simpl in *; lia.
  - intros s acc Hf. cbn [Json.parse_items]. rewrite <- IHo by lia.
    destruct (Json.scan_once f s) as [[v0 r]|] eqn:Ho; [|done].
    apply (proj1 (scan_length f)) in Ho.
    pose proof (skip_ws_length r) as Hr.
    destruct (Json.skip_ws r) as [|[[] [] [] [] [] [] [] []] t0]; try done.
    pose proof (skip_ws_length t0). apply IHi. simpl in *. lia.
  - intros s acc Hf. cbn [Json.parse_pairs].
    destruct s as [|[[] [] [] [] [] [] [] []] r]; try done.
    destruct (Json.scanstring r) as [[key r1]|] eqn:Hs; [|done].
    apply scanstring_length in Hs.
    pose proof (skip_ws_length r1) as Hr1.
    destruct (Json.skip_ws r1) as [|[[] [] [] [] [] [] [] []] r2]; try done.
    pose proof (skip_ws_length r2) as Hr2. simpl in Hf, Hr1.
    rewrite <- IHo by lia.
    destruct (Json.scan_once f (Json.skip_ws r2)) as [[v0 r3]|] eqn:Ho; [|done].
    apply (proj1 (scan_length f)) in Ho.
    pose proof (skip_ws_length r3) as Hr3.
    destruct (Json.skip_ws r3) as [|[[] [] [] [] [] [] [] []] t0]; try done.
    pose proof (skip_ws_length t0). apply IHp. simpl in *. lia.
Qed.

Lemma scan_once_fuel s k :
  Json.scan_once (2 * String.length s + 1 + k) s = Json.scan_once (2 * String.length s + 1) s.
Proof.
  induction k as [|k IH]; [by rewrite Nat.add_0_r|].
  rewrite Nat.add_succ_r, <- (proj1 (scan_fuel _)) by lia. done.
Qed.

(** The fuel [loads] gives the decoder is enough: with any more of it the
    decoder finds the same value, or refuses the text just the same. *)
Theorem loads_fuel_is_enough s k :
  Json.scan_once (2 * String.length s + 2 + k) (Json.skip_ws s)
  = Json.scan_once (2 * String.length s + 2) (Json.skip_ws s).
Proof.
  pose proof (skip_ws_length s) as Hs.
  set (n := String.length (Json.skip_ws s)) in *.
  replace (2 * String.length s + 2 + k)
    with (2 * n + 1 + (2 * (String.length s - n) + 1 + k)) by lia.
  replace (2 * String.length s + 2)
    with (2 * n + 1 + (2 * (String.length s - n) + 1)) by lia.
  subst n. by rewrite !scan_once_fuel.
Qed.

Local Close Scope nat_scope.

(** * The store along a run *)

Section moves.
Context (R : relation (gmap string (gmap string field_value))) `{!PreOrder R}.

Lemma moves_ret {A} (a : A) : moves R (mret a).
Proof. intros st. simpl. reflexivity. Qed.

Lemma moves_raise {A} e : moves R (raise (A := A) e).
Proof. intros st. simpl. reflexivity. Qed.

Lemma moves_lift {A} (r : result A) : moves R (lift r).
Proof. intros st. simpl. reflexivity. Qed.

Lemma moves_write sty msg : moves R (write sty msg).
Proof. intros st. simpl. reflexivity. Qed.

Lemma moves_bind {A B} (m : M A) (k : A → M B) :
  moves R m → (∀ a, moves R (k a)) → moves R (m ≫= k).
Proof.
  intros Hm Hk st. specialize (Hm st). unfold mbind, M_bind.
  destruct (m st) as [[a|e] st1]; simpl in *; [|done].
  specialize (Hk a st1). by etrans.
Qed.

Lemma moves_try {A} (m : M A) (h : exn → option (M A)) :
  moves R m → (∀ e k, h e = Some k → moves R k) → moves R (try_ m h).
Proof.
  intros Hm Hh st. specialize (Hm st). unfold try_.
  destruct (m st) as [[a|e] st1]; simpl in *; [done|].
  destruct (h e) as [k|] eqn:He; [|done].
  specialize (Hh e k He st1). by etrans.
Qed.

Lemma moves_for_each {X} (body : X → M counts) xs c :
  (∀ x, x ∈ xs → moves R (body x)) → moves R (for_each body xs c).
Proof.
  revert c. induction xs as [|x xs IH]; intros c Hbody; [apply moves_ret|].
  simpl. apply moves_bind; [apply Hbody; left|]. intros d. apply IH.
  intros y Hy. apply Hbody. by right.
Qed.

Lemma moves_record E upd warn data :
  (∀ d, data = Ok d → moves R (save_poi E d upd)) → moves R (record E upd warn data).
Proof.
  intros Hsave. apply moves_try.
  - destruct data as [d|e]; intros st; [|simpl; reflexivity].
    specialize (Hsave d eq_refl st). unfold mbind, M_bind, lift. simpl.
    by destruct (save_poi E d upd st) as [[?|?] ?].
  - intros e k [= <-]. apply moves_bind; [apply moves_write|]. intros _. apply moves_ret.
Qed.

Ltac moving_with tac :=
  repeat first
    [ tac | apply moves_ret | apply moves_raise | apply moves_lift
    | apply moves_write
    | apply moves_record; intros ? _
    | apply moves_for_each; intros ? _
    | apply moves_bind; [|intros ?]
    | apply moves_try;
        [|let e := fresh in let H := fresh in intros e ? H; try destruct e; simplify_eq/=]
    | progress (repeat case_match) ].

Lemma moves_import_file E file_path upd :
  (∀ d, moves R (save_poi E d upd)) → moves R (import_file E file_path upd).
Proof.
  intros Hsave.
  unfold import_file, import_from_url, import_csv, import_json, import_xml,
    import_csv_from_content, import_json_from_content, import_xml_from_content,
    fetch, parse_file, open, fromstring, csv_record, json_record, xml_record.
  moving_with ltac:(apply Hsave).
Qed.

Lemma moves_handle_loop E upd file_paths totals :
  (∀ d, moves R (save_poi E d upd)) → moves R (handle_loop E upd file_paths totals).
Proof.
  intros Hsave. revert totals.
  induction file_paths as [|file_path rest IH]; intros totals; simpl.
  - apply moves_ret.
  - apply moves_bind; [|intros t; apply IH].
    unfold handle_source. apply moves_try; [|intros ? ? [= <-]; moving_with fail].
    apply moves_bind; [by apply moves_import_file|]. intros [[i s] u]. moving_with fail.
Qed.

Lemma moves_handle E file_paths upd :
  (∀ d, moves R (save_poi E d upd)) → moves R (handle E file_paths upd).
Proof.
  intros Hsave. apply moves_bind; [by apply moves_handle_loop|]. intros [[i s] u]. apply moves_write.
Qed.

End moves.

(** ** Without the update flag *)

Lemma reconcile_adds_only E data : moves (⊆) (reconcile E data false).
Proof.
  intros st. unfold reconcile, get_or_create, objects_get, objects_create, save. unfold_M.
  rewrite params_are_items.
  destruct (db_fault E (store st) (OpGet (external_id data))); [done|].
  destruct (external_id data) as [eid|] eqn:Heid.
  - destruct (store st !! eid) as [old|] eqn:Hold; [done|].
    destruct (db_fault E _ _); [done|].
    rewrite key_of_setattr_all, Heid, Hold. simpl. by apply insert_subseteq.
  - destruct (db_fault E _ _); [done|]. by rewrite key_of_setattr_all, Heid.
Qed.

Lemma save_poi_adds_only E data : moves (⊆) (save_poi E data false).
Proof.
  apply moves_try; [apply _|apply reconcile_adds_only|].
  intros e k [= <-]. apply moves_bind; [apply _|apply moves_write; apply _|].
  intros _. apply moves_ret; apply _.
Qed.

(** Without the update flag a run changes no row that was there before
    it: every stored row is the same row after the run. *)
Theorem handle_without_update_changes_no_row E file_paths st :
  store st ⊆ store (handle E file_paths false st).2.
Proof. apply (moves_handle (⊆)). apply save_poi_adds_only. Qed.

(** ** The rows a loop touches *)

Lemma same_row_preorder k : PreOrder (same_row k).
Proof.
  split; [by intros s|]. intros s1 s2 s3 H12 H23. unfold same_row in *. congruence.
Qed.

Lemma reconcile_same_row E data upd k :
  external_id data ≠ Some k → moves (same_row k) (reconcile E data upd).
Proof.
  intros Hk st. unfold same_row, reconcile, get_or_create, objects_get, objects_create, save.
  unfold_M. rewrite params_are_items.
  destruct (db_fault E (store st) (OpGet (external_id data))); [done|].
  destruct (external_id data) as [eid|] eqn:Heid.
  - assert (eid ≠ k) by congruence.
    destruct (store st !! eid) as [old|] eqn:Hold.
    + destruct upd; [|done]. cbn [fst snd].
      destruct (db_fault E _ _); [done|].
      rewrite key_of_setattr_all, Heid.
      rewrite bool_decide_eq_false_2 by (intros Hne; by apply Hne). cbn [andb].
      simpl. rewrite insert_delete_eq. by rewrite lookup_insert_ne.
    + destruct (db_fault E _ _); [done|].
      rewrite key_of_setattr_all, Heid, Hold. simpl. by rewrite lookup_insert_ne.
  - destruct (db_fault E _ _); [done|]. by rewrite key_of_setattr_all, Heid.
Qed.

Lemma save_poi_same_row E data upd k :
  external_id data ≠ Some k → moves (same_row k) (save_poi E data upd).
Proof.
  intros Hk. pose proof (same_row_preorder k).
  apply moves_try; [done|by apply reconcile_same_row|].
  intros e m [= <-]. apply moves_bind; [done|by apply moves_write|].
  intros _. by apply moves_ret.
Qed.

Lemma for_each_same_row {X} E upd warn (extract : X → result poi_data) xs c st k :
  (∀ x d, x ∈ xs → extract x = Ok d → external_id d ≠ Some k) →
  store (for_each (fun x => record E upd warn (extract x)) xs c st).2 !! k = store st !! k.
Proof.
  intros Hids. pose proof (same_row_preorder k).
  apply (moves_for_each (same_row k)). intros x Hx.
  apply moves_record; [done|]. intros d Hd. apply save_poi_same_row. by eapply Hids.
Qed.

(** A pass over the records of a source changes only the rows whose
    [external_id] one of its records carries, whatever the store refuses. *)
Theorem loop_touches_only_its_ids {X} E upd warn (extract : X → result poi_data) xs c st k :
  (∀ x d, x ∈ xs → extract x = Ok d → external_id d ≠ Some k) →
  store (for_each (fun x => record E upd warn (extract x)) xs c st).2 !! k = store st !! k.
Proof. apply for_each_same_row. Qed.

Lemma loop_touches_only_its_ids_witness :
  store (for_each (fun x => record sample_world true (csv_warning None) (csv_poi_data x))
           [cafe_row; bar_row; pub_row] (0, 0, 0) after_cafe).2 !! "9"
  = store after_cafe !! "9".
Proof.
  apply (loop_touches_only_its_ids sample_world true (csv_warning None) csv_poi_data
           [cafe_row; bar_row; pub_row] (0, 0, 0) after_cafe "9").
  intros x d Hx Hd. apply list_elem_of_In in Hx. simpl in Hx.
  destruct Hx as [<- | [<- | [<- | []]]]; vm_compute in Hd; by simplify_eq.
Defined.

(** ** Writing the same fields again *)





(** ** Which record a row holds after a pass *)





(** ** A pass with the update flag, twice *)













(** ** What was written has no influence *)

Lemma reads_store_only_ret {A} (a : A) : reads_store_only (mret a) (mret a).
Proof. by intros st st' H. Qed.

Lemma reads_store_only_bind {A B} (m m' : M A) (k k' : A → M B) :
  reads_store_only m m' → (∀ a, reads_store_only (k a) (k' a)) →
  reads_store_only (m ≫= k) (m' ≫= k').
Proof.
  intros Hm Hk st st' H. unfold mbind, M_bind.
  destruct (Hm st st' H) as [Hr Hs].
  destruct (m st) as [[a|e] st1], (m' st') as [[a'|e'] st1']; simplify_eq/=; [|done].
  by apply Hk.
Qed.

Lemma reads_store_only_reconcile E data upd :
  reads_store_only (reconcile E data upd) (reconcile E data upd).
Proof.
  intros [s o] [s' o'] H. simpl in H. subst s'.
  unfold same_outcome, reconcile, get_or_create, objects_get, objects_create, save. unfold_M.
  rewrite params_are_items. cbn [store stdout].
  destruct (db_fault E s (OpGet (external_id data))); [done|].
  destruct (external_id data) as [eid|].
  - destruct (s !! eid) as [old|].
    + destruct upd; [|done]. cbn [fst snd store stdout].
      destruct (db_fault E _ _); [done|].
      destruct (key_of _) as [k|]; [|done]. cbn [store stdout].
      by destruct (bool_decide (k ≠ eid) && bool_decide (is_Some (s !! k))).
    + destruct (db_fault E _ _); [done|].
      destruct (key_of _) as [k|]; [|done]. cbn [store stdout]. by destruct (s !! k).
  - destruct (db_fault E _ _); [done|].
    destruct (key_of _) as [k|]; [|done]. cbn [store stdout]. by destruct (s !! k).
Qed.

Lemma reads_store_only_record E upd warn warn' data :
  reads_store_only (record E upd warn data) (record E upd warn' data).
Proof.
  intros st st' H. unfold record, save_poi, try_, lift. unfold_M.
  destruct data as [d|e]; [|done].
  destruct (reads_store_only_reconcile E d upd st st' H) as [Hr Hs].
  destruct (reconcile E d upd st) as [[c|e] st1],
    (reconcile E d upd st') as [[c'|e'] st1']; simplify_eq/=; done.
Qed.

Lemma reads_store_only_for_each {X} (body body' : X → M counts) xs c :
  (∀ x, reads_store_only (body x) (body' x)) →
  reads_store_only (for_each body xs c) (for_each body' xs c).
Proof.
  intros Hbody. revert c. induction xs as [|x xs IH]; intros c; [apply reads_store_only_ret|].
  simpl. apply reads_store_only_bind; [apply Hbody|]. intros d. apply IH.
Qed.

(** ** Where the two XML parsers agree *)

Lemma poi_elements_agree root :
  findall "poi" root ≠ [] ∨ findall "point" root ≠ [] ∨ findall "item" root ≠ [] ∨
  findall "DATA_RECORD" root = [] →
  file_poi_elements root = content_poi_elements root.
Proof.
  rewrite file_poi_elements_order, content_poi_elements_order.
  destruct (findall "poi" root), (findall "point" root), (findall "item" root),
    (findall "DATA_RECORD" root); simpl; try done.
  intros [H|[H|[H|H]]]; done.
Qed.

(** For a document that parses and holds a [poi], [point] or [item]
    element, or no [DATA_RECORD] element, the parser of local files and the
    parser of remote content return the same counters and leave the same
    store; they differ only in the warnings. *)
Theorem xml_parsers_agree E file_path content root upd src st :
  read_file E file_path = Some content →
  ET_fromstring E content = Some root →
  findall "poi" root ≠ [] ∨ findall "point" root ≠ [] ∨ findall "item" root ≠ [] ∨
  findall "DATA_RECORD" root = [] →
  same_outcome (import_xml E file_path upd st) (import_xml_from_content E content upd src st).
Proof.
  intros Hfile Hdoc Htags.
  pose proof (reads_store_only_for_each
                (xml_record E upd None) (xml_record E upd (Some src))
                (content_poi_elements root) (0, 0, 0)
                (fun x => reads_store_only_record E upd _ _ _) st st eq_refl) as [Hr Hs].
  destruct (for_each_counts (xml_record E upd None)
              (fun x st => record_returns _ _ _ _ st) (content_poi_elements root) (0, 0, 0) st)
    as (c & st1 & H1 & _).
  destruct (for_each_counts (xml_record E upd (Some src))
              (fun x st => record_returns _ _ _ _ st) (content_poi_elements root) (0, 0, 0) st)
    as (c' & st1' & H1' & _).
  unfold import_xml, import_xml_from_content, parse_file, open, fromstring, try_. unfold_M.
  rewrite Hfile, Hdoc, content_poi_elements_not_nil, (poi_elements_agree root Htags). simpl.
  rewrite H1, H1' in *. done.
Qed.

Lemma xml_parsers_agree_witness :
  same_outcome (import_xml library "pois.xml" true empty_state)
    (import_xml_from_content library pois_xml true "https://example.com/pois" empty_state).
Proof.
  apply (xml_parsers_agree library "pois.xml" pois_xml pois_root).
  - reflexivity.
  - reflexivity.
  - left. discriminate.
Defined.

(** ** A header without a required column *)









(** ** The shapes of a JSON document *)



(** ** The description *)



(** ** A document that parses *)

(** For remote XML content that parses, the parser runs the loop over the
    elements it found and returns what the loop returns: the error for a
    document without elements is never raised and no notice of a failed
    parse is written. *)
Theorem xml_content_that_parses E content root upd src st :
  ET_fromstring E content = Some root →
  import_xml_from_content E content upd src st
  = for_each (xml_record E upd (Some src)) (content_poi_elements root) (0, 0, 0) st.
Proof.
  intros Hdoc. unfold import_xml_from_content, fromstring, try_. unfold_M.
  rewrite Hdoc, content_poi_elements_not_nil.
  by destruct (for_each_counts (xml_record E upd (Some src))
                 (fun x st => record_returns _ _ _ _ st) (content_poi_elements root) (0, 0, 0) st)
    as (c & st' & -> & _).
Qed.

Lemma xml_content_that_parses_witness :
  import_xml_from_content web records_xml false records_url empty_state
  = for_each (xml_record web false (Some records_url)) (content_poi_elements records_root)
      (0, 0, 0) empty_state.
Proof. apply xml_content_that_parses. reflexivity. Defined.

(** ** What a remote import raises *)

(** Whatever goes wrong with a remote source surfaces as [CommandError]:
    a failed download under its own message, with nothing but the
    download line written, and every other failure as an error of
    processing the URL that wraps the [CommandError] raised inside. *)
Theorem remote_failures E url upd st e st' :
  import_from_url E url upd st = (Raise e, st') →
  (requests_get E url = None ∧
   e = CommandError ("Failed to download from URL " +:+ url) (Some RequestException) ∧
   st' = wrote st PLAIN (MsgDownloading url)) ∨
  (is_Some (requests_get E url) ∧
   ∃ msg cause,
     e = CommandError ("Error processing URL " +:+ url) (Some (CommandError msg cause))).
Proof.
  destruct (requests_get E url) as [response|] eqn:Hget.
  - rewrite (import_from_url_dispatch E url upd st response Hget). cbv zeta.
    intros H. right. split; [done|].
    destruct (remote_format _ url) as [[| |]|].
    + destruct (import_csv_from_content_counts E (text response) upd url
                  (wrote st PLAIN (MsgDownloading url))) as (c & st1 & Hc & _).
      by rewrite Hc in H.
    + pose proof (import_json_from_content_counts E (text response) upd url
                    (wrote st PLAIN (MsgDownloading url))) as Hj.
      destruct (json_content_records (text response)) as [its|e0].
      * destruct Hj as (c & st1 & Hc & _). by rewrite Hc in H.
      * destruct Hj as [msg Hj]. rewrite Hj in H. simpl in H. injection H as <- <-. eauto.
    + destruct (import_xml_from_content_counts E (text response) upd url
                  (wrote st PLAIN (MsgDownloading url))) as (c & st1 & Hc & _).
      by rewrite Hc in H.
    + simpl in H. injection H as <- <-. eauto.
  - unfold import_from_url, fetch, try_. unfold_M. rewrite Hget. simpl.
    intros [= <- <-]. by left.
Qed.

Lemma remote_failures_witness :
  (requests_get web dead_url = None ∧
   CommandError ("Failed to download from URL " +:+ dead_url) (Some RequestException)
   = CommandError ("Failed to download from URL " +:+ dead_url) (Some RequestException) ∧
   wrote empty_state PLAIN (MsgDownloading dead_url)
   = wrote empty_state PLAIN (MsgDownloading dead_url)) ∨
  (is_Some (requests_get web dead_url) ∧
   ∃ msg cause,
     CommandError ("Failed to download from URL " +:+ dead_url) (Some RequestException)
     = CommandError ("Error processing URL " +:+ dead_url) (Some (CommandError msg cause))).
Proof.
  apply (remote_failures web dead_url false empty_state). reflexivity.
Defined.

(** * The text [float] accepts *)

















(** * Stripping and splitting *)














(** * The last fallback of [parse_ratings] *)



(** * The admin column *)

Example display_123 : average_rating_display (VList [VInt 1; VInt 2; VInt 3]) = "2.00".
Proof. reflexivity. Qed.

Example display_floats :
  average_rating_display (VList [VFloat f3; VFloat f4_5]) = "3.75".
Proof. reflexivity. Qed.

Example display_third : average_rating_display (VList [VInt 1; VInt 1; VInt 0]) = "0.67".
Proof. reflexivity. Qed.

Example display_tie :
  format_2f (S754_finite false 1 (-3)) = "0.12" ∧ format_2f (S754_finite false 3 (-3)) = "0.38".
Proof. split; reflexivity. Qed.

Example display_huge : average_rating_display (VList [VInt (10 ^ 400)]) = "0.00".
Proof. reflexivity. Qed.

(** The admin column shows 0.00 for ratings that hold no average, and
    also when [average_rating] raises. *)
Theorem display_of_no_average ratings :
  no_average ratings ∨ (∃ e, average_rating ratings = Raise e) →
  average_rating_display ratings = "0.00".
Proof.
  unfold average_rating_display. intros H.
  destruct (average_rating ratings) as [f|e] eqn:Hav; [|done].
  destruct H as [H|[e He]]; [|done].
  destruct (average_rating_cases ratings) as (f' & Hf' & Hfalsy & _ & _ & _ & Hitem & Hother).
  { by rewrite Hav. }
  rewrite Hav in Hf'. injection Hf' as <-.
  assert (f = zero) as ->; [|done].
  destruct H as [H|[[H1 H2]|(l & -> & H)]]; eauto.
Qed.

Lemma display_of_no_average_witness : average_rating_display (VStr "great") = "0.00".
Proof.
  apply display_of_no_average. left. right. left. split; [reflexivity|]. intros l. discriminate.
Defined.

(** * A JSON item that cannot be built *)

Lemma json_poi_data_raises_witness :
  ∃ e, json_poi_data sample_world (VDict [("id", VInt 1); ("category", VStr "food")]) = Raise e.
Proof.
  apply (json_poi_data_raises sample_world (VDict [("id", VInt 1); ("category", VStr "food")])).
  right. exists "name". split; [right; left|reflexivity].
Defined.
